(** * Train departures over an embedded database: a model of [lab24/duckDB.py]

    The program keeps train departures in a DuckDB file with two tables
    ([groups], [trains]) and two sequences ([type_st], [train_st]), and
    prints query results as a bordered text table.

    The development follows the source top to bottom:
    - text and [str.format] alignment, then [display_trains];
    - the database file: catalog, rows, the statements the program issues;
    - [create_db], [add_train], [select_all], [select_by_num];
    - the command line of [main];
    - the properties. *)

From Stdlib Require Import ZArith NArith List Ascii String.
From Stdlib Require Import DecimalString DecimalPos DecimalZ DecimalFacts Lia.
From stdpp Require Import gmap strings list fin_maps.

Local Open Scope Z_scope.

(** ** Text

    A Python [str] is a sequence of Unicode code points; [len] and the
    alignment of [str.format] count code points.  The table header is
    Cyrillic, so a byte string would give the wrong widths. *)

Abbreviation str := (list N).

Definition txt (s : string) : str :=
  N_of_ascii <$> list_ascii_of_string s.

Definition LF : N := 10%N.
Definition SPACE : N := 32%N.
Definition DASH : N := 45%N.

(** [str(n)] for a Python [int]; the same decimal form DuckDB gives when an
    integer is stored into a TEXT column. *)
Definition py_str (n : Z) : str :=
  txt (NilZero.string_of_int (Z.to_int n)).

Definition is_digit (c : N) : bool := ((48 <=? c) && (c <=? 57))%N.

Definition digits_value (ds : str) : Z :=
  fold_left (λ acc d, 10 * acc + (Z.of_N d - 48)) ds 0.

(** The integer written by an optional sign and decimal digits. *)
Definition read_int (s : str) : option Z :=
  match s with
  | [] => None
  | c :: rest =>
      if bool_decide (c = DASH) || bool_decide (c = 43%N) then
        match rest with
        | [] => None
        | _ :: _ =>
            if forallb is_digit rest
            then Some (if bool_decide (c = DASH) then - digits_value rest
                       else digits_value rest)
            else None
        end
      else if forallb is_digit s then Some (digits_value s) else None
  end.

(** ['-' * n] *)
Definition dashes (n : nat) : str := replicate n DASH.

(** The alignment part of a format specification: [{:<w}], [{:>w}] and
    [{:^w}].  A width is a minimum: text longer than [w] is written
    unchanged.  For [^] the left padding is the smaller half. *)
Definition ljust (w : nat) (s : str) : str :=
  s ++ replicate (w - length s)%nat SPACE.

Definition rjust (w : nat) (s : str) : str :=
  replicate (w - length s)%nat SPACE ++ s.

Definition center (w : nat) (s : str) : str :=
  let pad := (w - length s)%nat in
  replicate (pad / 2)%nat SPACE ++ s ++ replicate (pad - pad / 2)%nat SPACE.

(** ** display_trains

    A row-mapping is a Python dict from column keys to text, as
    [select_all] builds it from TEXT columns. *)

Abbreviation train := (gmap string str).

(** [train.get(key, '')] *)
Definition get (t : train) (key : string) : str :=
  default [] (t !! key).

Definition line : str :=
  txt "+-" ++ dashes 4 ++ txt "-+-" ++ dashes 30 ++ txt "-+-" ++
  dashes 20 ++ txt "-+-" ++ dashes 20 ++ txt "-+".

(** The four header labels, as code points. *)
Definition label_no : str := [8470%N].
Definition label_punkt : str :=
  [1055; 1091; 1085; 1082; 1090; 32; 1085; 1072; 1079; 1085; 1072; 1095;
   1077; 1085; 1080; 1103]%N.
Definition label_nomer : str :=
  [1053; 1086; 1084; 1077; 1088; 32; 1087; 1086; 1077; 1079; 1076; 1072]%N.
Definition label_time : str :=
  [1042; 1088; 1077; 1084; 1103; 32; 1086; 1090; 1087; 1088; 1072; 1074;
   1083; 1077; 1085; 1080; 1103]%N.

Definition header : str :=
  txt "| " ++ center 4 label_no ++ txt " | " ++ center 30 label_punkt ++
  txt " | " ++ center 20 label_nomer ++ txt " | " ++ center 20 label_time ++
  txt " |".

(** The three text fields of a data row. *)
Definition punkt_field (t : train) : str := ljust 30 (get t "punkt").
Definition nomer_field (t : train) : str := ljust 20 (get t "nomer").
Definition time_field (t : train) : str := ljust 19 (get t "time").

(** ['| {:>4} | {:<30} | {:<20} |  {:<19} |'.format(idx, ...)] *)
Definition data_row (idx : Z) (t : train) : str :=
  txt "| " ++ rjust 4 (py_str idx) ++ txt " | " ++ punkt_field t ++
  txt " | " ++ nomer_field t ++ txt " |  " ++ time_field t ++ txt " |".

(** [for idx, train in enumerate(trains, idx): print(...)] *)
Fixpoint data_rows (idx : Z) (trains : list train) : list str :=
  match trains with
  | [] => []
  | t :: rest => data_row idx t :: data_rows (idx + 1) rest
  end.

(** The arguments of the successive [print] calls. *)
Definition display_trains (trains : list train) : list str :=
  match trains with
  | [] => []
  | _ :: _ => [line; header; line] ++ data_rows 1 trains ++ [line]
  end.

(** What the [print] calls write: each argument followed by a newline. *)
Definition stdout_of (prints : list str) : str :=
  concat ((λ s, s ++ [LF]) <$> prints).

(** Lines of a text: its newline characters. *)
Definition count_char (c : N) (s : str) : nat :=
  length (filter (λ x, x = c) s).

Definition line_count (s : str) : nat := count_char LF s.

(** ** The database file

    The model of the engine covers the statements the program issues and
    nothing else.  A table is the list of its rows in insertion order; the
    program never updates or deletes. *)

(** A value bound to a [?] placeholder. *)
Inductive pyval :=
| PNone
| PInt (n : Z)
| PStr (s : str).

(** [groups (train_id INTEGER PRIMARY KEY, train_title TEXT NOT NULL)] *)
Record group_row := GroupRow { g_train_id : Z; g_train_title : str }.

(** [trains (train_id INTEGER PRIMARY KEY, train_punkt TEXT NOT NULL,
    train_nomer INTEGER NOT NULL, train_time TEXT NOT NULL,
    FOREIGN KEY(train_id) REFERENCES groups(train_id))] *)
Record train_row := TrainRow {
  t_train_id : Z;
  t_train_punkt : str;
  t_train_nomer : Z;
  t_train_time : str
}.

(** The column of [trains] that the schema's FOREIGN KEY clause names. *)
Definition trains_foreign_key (r : train_row) : Z := t_train_id r.

(** A sequence: the value [nextval] gives next, and the value it gave last
    ([currval]), if any. *)
Record sequence := Sequence { seq_next : Z; seq_last : option Z }.

(** The catalog of one file: each of the four objects exists or not. *)
Record database := Database {
  type_st : option sequence;
  train_st : option sequence;
  groups : option (list group_row);
  trains : option (list train_row)
}.

(** A file that [duckdb.connect] has just created. *)
Definition empty_db : database := Database None None None None.

Inductive constraint := NotNull | PrimaryKey | ForeignKey.

Inductive exn :=
| CatalogError (object : string)
| SequenceError (object : string)
| ConstraintError (table : string) (c : constraint)
| ConversionError
| InvalidInputError
| AttributeError (attr : string)
| TypeError.

Inductive result (A : Type) :=
| Ok (a : A)
| Raise (e : exn).
Arguments Ok {A} a.
Arguments Raise {A} e.

(** Code that reads and writes a state [S] and may raise.  Statements run
    on an open connection in autocommit mode: each one either takes effect
    or raises, and a raise ends the Python function with the earlier
    statements already applied. *)
Definition M (S A : Type) : Type := S → result A * S.

Definition ret {S A} (a : A) : M S A := λ s, (Ok a, s).

Definition bind {S A B} (m : M S A) (k : A → M S B) : M S B :=
  λ s, match m s with
       | (Ok a, s') => k a s'
       | (Raise e, s') => (Raise e, s')
       end.

Definition raise {S A} (e : exn) : M S A := λ s, (Raise e, s).

Notation "'let!' x ':=' m 'in' k" := (bind m (λ x, k))
  (at level 10, x name, m at level 200, k at level 200).
Notation "m ';;;' k" := (bind m (λ _, k))
  (at level 90, right associativity).

(** What the engine and its driver leave open.

    [nextval] is evaluated before the constraints of the row are checked;
    whether the drawn value stays consumed when the INSERT is then rejected
    differs from call to call.

    A Python [int] is bound as INTEGER when it fits 32 bits and as BIGINT
    when it fits 64.  What type, if any, a larger one of less than 129 bits
    gets is the driver's choice: [wide_integer_range] gives the bounds of
    that type, or [None] when the driver refuses the value.

    The query of [select_by_num] filters on a column of [groups]; whether
    the filter is evaluated on the rows of [groups] before the join, or on
    the joined rows, is the optimiser's choice.

    Every result below holds for every engine. *)
Class Engine := {
  rejected_insert_keeps_nextval : bool;
  wide_integer_range : Z → option (Z * Z);
  filter_before_join : bool
}.

Definition advance (s : sequence) : sequence :=
  Sequence (seq_next s + 1) (Some (seq_next s)).

Definition ids_of_groups (gs : list group_row) : list Z := g_train_id <$> gs.
Definition ids_of_trains (ts : list train_row) : list Z := t_train_id <$> ts.

(** [column = ?] on the TEXT column [train_title], once the comparison is
    known not to raise (see [lookup_error]).  NULL equals nothing.  For an
    integer the engine casts the title to the integer's type and compares
    numbers; on titles that are decimal forms this is the comparison of the
    title with the integer's decimal form. *)
Definition title_equals (title : str) (v : pyval) : bool :=
  match v with
  | PNone => false
  | PInt n => bool_decide (title = py_str n)
  | PStr s => bool_decide (title = s)
  end.

(** The TEXT a parameter becomes when stored; NULL for [None]. *)
Definition to_text (v : pyval) : option str :=
  match v with
  | PNone => None
  | PInt n => Some (py_str n)
  | PStr s => Some s
  end.

(** The bounds of the integer type a Python [int] is bound as; [None] when
    the driver refuses the value. *)
Definition integer_range `{Engine} (n : Z) : option (Z * Z) :=
  if bool_decide (- 2 ^ 31 ≤ n < 2 ^ 31) then Some (- 2 ^ 31, 2 ^ 31 - 1)
  else if bool_decide (- 2 ^ 63 ≤ n < 2 ^ 63) then Some (- 2 ^ 63, 2 ^ 63 - 1)
  else if bool_decide (- 2 ^ 128 < n < 2 ^ 128) then wide_integer_range n
  else None.

(** The integer a title is the decimal form of, if it is one. *)
Definition decimal_title (title : str) : option Z :=
  match read_int title with
  | Some m => if bool_decide (py_str m = title) then Some m else None
  | None => None
  end.

(** The title is the decimal form of an integer within the bounds: the cast
    of the title to the type gives that integer. *)
Definition title_fits (range : Z * Z) (title : str) : bool :=
  match decimal_title title with
  | Some m => bool_decide (range.1 ≤ m ≤ range.2)
  | None => false
  end.

(** The error of binding a parameter, before the statement runs: the driver
    refuses an integer it has no type for. *)
Definition bind_error `{Engine} (v : pyval) : option exn :=
  match v with
  | PInt n =>
      match integer_range n with
      | None => Some InvalidInputError
      | Some _ => None
      end
  | _ => None
  end.

(** The error of [train_title = ?] on the given titles.  For an integer the
    engine casts each title to the integer's type, and a title the cast
    does not take ends the statement with a conversion error.  The cast of
    a decimal form within the bounds is modelled; any other title is
    reported as a conversion error, also the few spellings the engine's
    cast reads besides (blanks, leading zeros), which only a caller who
    passes text as the train number of [add_train] can store. *)
Definition lookup_error `{Engine} (v : pyval) (titles : list str)
  : option exn :=
  match v with
  | PInt n =>
      match integer_range n with
      | None => Some InvalidInputError
      | Some range =>
          if forallb (title_fits range) titles then None
          else Some ConversionError
      end
  | _ => None
  end.

Section Statements.
Context `{Engine}.

(** [CREATE SEQUENCE IF NOT EXISTS type_st START 1] *)
Definition create_sequence_type_st : M database unit := λ db,
  match type_st db with
  | Some _ => (Ok (), db)
  | None => (Ok (), Database (Some (Sequence 1 None)) (train_st db)
                             (groups db) (trains db))
  end.

(** [CREATE SEQUENCE IF NOT EXISTS train_st START 1] *)
Definition create_sequence_train_st : M database unit := λ db,
  match train_st db with
  | Some _ => (Ok (), db)
  | None => (Ok (), Database (type_st db) (Some (Sequence 1 None))
                             (groups db) (trains db))
  end.

(** [CREATE TABLE IF NOT EXISTS groups (...)] *)
Definition create_table_groups : M database unit := λ db,
  match groups db with
  | Some _ => (Ok (), db)
  | None => (Ok (), Database (type_st db) (train_st db) (Some []) (trains db))
  end.

(** [CREATE TABLE IF NOT EXISTS trains (... REFERENCES groups(train_id))];
    a new table needs the referenced one. *)
Definition create_table_trains : M database unit := λ db,
  match trains db with
  | Some _ => (Ok (), db)
  | None =>
      match groups db with
      | None => (Raise (CatalogError "groups"), db)
      | Some _ =>
          (Ok (), Database (type_st db) (train_st db) (groups db) (Some []))
      end
  end.

(** [SELECT train_id FROM groups WHERE train_title = ?], then
    [fetchone()]: a matching row, or [None].  The program's own files have
    at most one. *)
Definition select_group_id (v : pyval) : M database (option Z) := λ db,
  match groups db with
  | None => (Raise (CatalogError "groups"), db)
  | Some gs =>
      match lookup_error v (g_train_title <$> gs) with
      | Some e => (Raise e, db)
      | None =>
          (Ok (g_train_id <$>
                 head (filter (λ g, title_equals (g_train_title g) v = true)
                              gs)),
           db)
      end
  end.

(** The file after a rejected INSERT that drew from [type_st]. *)
Definition rejected_group_insert (db : database) (s : sequence) : database :=
  if rejected_insert_keeps_nextval
  then Database (Some (advance s)) (train_st db) (groups db) (trains db)
  else db.

(** [INSERT INTO groups VALUES (nextval('type_st'), ?)] *)
Definition insert_group (v : pyval) : M database unit := λ db,
  match groups db, type_st db with
  | None, _ => (Raise (CatalogError "groups"), db)
  | _, None => (Raise (CatalogError "type_st"), db)
  | Some gs, Some s =>
      match bind_error v with
      | Some e => (Raise e, db)
      | None =>
          match to_text v with
          | None =>
              (Raise (ConstraintError "groups" NotNull),
               rejected_group_insert db s)
          | Some title =>
              if bool_decide (seq_next s ∈ ids_of_groups gs)
              then (Raise (ConstraintError "groups" PrimaryKey),
                    rejected_group_insert db s)
              else (Ok (),
                    Database (Some (advance s)) (train_st db)
                             (Some (gs ++ [GroupRow (seq_next s) title]))
                             (trains db))
          end
      end
  end.

(** [SELECT currval('type_st')], then [fetchone()[0]]. *)
Definition currval_type_st : M database Z := λ db,
  match type_st db with
  | None => (Raise (CatalogError "type_st"), db)
  | Some s =>
      match seq_last s with
      | None => (Raise (SequenceError "type_st"), db)
      | Some n => (Ok n, db)
      end
  end.

(** The file after a rejected INSERT that drew from [train_st]. *)
Definition rejected_train_insert (db : database) (s : sequence) : database :=
  if rejected_insert_keeps_nextval
  then Database (type_st db) (Some (advance s)) (groups db) (trains db)
  else db.

(** [INSERT INTO trains (train_id, train_punkt, train_nomer, train_time)
    VALUES (nextval('train_st'), ?, ?, ?)].  The text columns must not be
    NULL, the row must have a fresh primary key, and its foreign-key
    column must be the [train_id] of a [groups] row.  [nomer] is the group
    id that [add_train] has read from the file.  [punkt] and [time] are
    texts or [None] in every call [main] makes; for an integer passed
    there the model stores its decimal form whatever its size. *)
Definition insert_train (punkt : pyval) (nomer : Z) (time : pyval) : M database unit :=
  λ db,
  match trains db, groups db, train_st db with
  | None, _, _ => (Raise (CatalogError "trains"), db)
  | _, None, _ => (Raise (CatalogError "groups"), db)
  | _, _, None => (Raise (CatalogError "train_st"), db)
  | Some ts, Some gs, Some s =>
      match to_text punkt, to_text time with
      | Some p, Some t =>
          let row := TrainRow (seq_next s) p nomer t in
          if bool_decide (t_train_id row ∈ ids_of_trains ts)
          then (Raise (ConstraintError "trains" PrimaryKey),
                rejected_train_insert db s)
          else if bool_decide (trains_foreign_key row ∈ ids_of_groups gs)
          then (Ok (),
                Database (type_st db) (Some (advance s)) (groups db)
                         (Some (ts ++ [row])))
          else (Raise (ConstraintError "trains" ForeignKey),
                rejected_train_insert db s)
      | _, _ =>
          (Raise (ConstraintError "trains" NotNull),
           rejected_train_insert db s)
      end
  end.

(** [FROM trains INNER JOIN groups ON groups.train_id = trains.train_id],
    projected to [(train_punkt, train_title, train_time)].  The query has
    no ORDER BY and the engine fixes no order: the list stands for its
    rows in whatever order they come, and the properties of query results
    below are stated up to the order of the rows. *)
Definition join_rows (ts : list train_row) (gs : list group_row)
  : list (str * str * str) :=
  t ← ts;
  g ← filter (λ g, g_train_id g = t_train_id t) gs;
  [(t_train_punkt t, g_train_title g, t_train_time t)].

(** [SELECT ... FROM trains INNER JOIN groups ...], then [fetchall()]. *)
Definition select_join : M database (list (str * str * str)) := λ db,
  match trains db, groups db with
  | None, _ => (Raise (CatalogError "trains"), db)
  | _, None => (Raise (CatalogError "groups"), db)
  | Some ts, Some gs => (Ok (join_rows ts gs), db)
  end.

(** The same with [WHERE groups.train_title = ?].  The titles the filter
    is evaluated on are those of all [groups] rows or those of the joined
    rows. *)
Definition select_join_where (v : pyval)
  : M database (list (str * str * str)) := λ db,
  match trains db, groups db with
  | None, _ => (Raise (CatalogError "trains"), db)
  | _, None => (Raise (CatalogError "groups"), db)
  | Some ts, Some gs =>
      let rows := join_rows ts gs in
      let compared :=
        if filter_before_join then g_train_title <$> gs
        else (λ r, r.1.2) <$> rows in
      match lookup_error v compared with
      | Some e => (Raise e, db)
      | None => (Ok (filter (λ r, title_equals r.1.2 v = true) rows), db)
      end
  end.
End Statements.

(** ** The four database functions

    The files of the machine, by path.  [duckdb.connect] opens the file at
    a path and creates it when there is none; every function opens its own
    connection and leaves the file as its statements made it.  Paths are
    compared as text. *)

Abbreviation files := (gmap str database).

Definition connect (path : str) (fs : files) : database :=
  default empty_db (fs !! path).

Definition with_connection {A} (path : str) (body : M database A)
  : M files A :=
  λ fs, let out := body (connect path fs) in
        (out.1, <[path := out.2]> fs).

(** [{"punkt": row[0], "nomer": row[1], "time": row[2]}] *)
Definition row_dict (row : str * str * str) : train :=
  {[ "punkt" := row.1.1; "nomer" := row.1.2; "time" := row.2 ]}.

Section Program.
Context `{Engine}.

Definition create_db_stmts : M database unit :=
  create_sequence_type_st ;;;
  create_sequence_train_st ;;;
  create_table_groups ;;;
  create_table_trains.

Definition create_db (database_path : str) : M files unit :=
  with_connection database_path create_db_stmts.

(** The group lookup, the insert of a new group when there is none, and
    the insert of the train; [nomer] is rebound to the group's id.
    [conn.commit()] has nothing left to commit. *)
Definition add_train_stmts (punkt nomer time : pyval) : M database unit :=
  let! row := select_group_id nomer in
  let! nomer :=
    match row with
    | None => insert_group nomer ;;; currval_type_st
    | Some id => ret id
    end in
  insert_train punkt nomer time.

Definition add_train (database_path : str) (punkt nomer time : pyval)
  : M files unit :=
  with_connection database_path (add_train_stmts punkt nomer time).

Definition select_all_stmts : M database (list train) :=
  let! rows := select_join in
  ret (row_dict <$> rows).

Definition select_all (database_path : str) : M files (list train) :=
  with_connection database_path select_all_stmts.

Definition select_by_num_stmts (nomer : pyval) : M database (list train) :=
  let! rows := select_join_where nomer in
  ret (row_dict <$> rows).

Definition select_by_num (database_path : str) (nomer : pyval)
  : M files (list train) :=
  with_connection database_path (select_by_num_stmts nomer).
End Program.

(** ** The command line

    [argparse] as [main] configures it: a main parser with [--version] and
    an optional subcommand, and three subcommand parsers that each inherit
    [--db] from [file_parser].  The model reads options written in full
    and followed by their value as a separate argument.  What the library
    accepts beyond that (unambiguous prefixes of long options, the attached
    forms [--opt=value] and [-oVALUE], [-h], integers with blanks or
    underscores) is reported as [NotCovered]. *)

#[global] Instance pyval_eq_dec : EqDecision pyval.
Proof. solve_decision. Defined.

Abbreviation namespace := (gmap string pyval).

(** One [add_argument] call. *)
Record argument := Argument {
  option_strings : list str;
  dest : string;
  type_int : bool;
  required : bool
}.

Definition file_parser : list argument :=
  [Argument [txt "--db"] "db" false false].

Definition add_parser : list argument :=
  file_parser ++
  [Argument [txt "-p"; txt "--punkt"] "punkt" false true;
   Argument [txt "-n"; txt "--nomer"] "nomer" true false;
   Argument [txt "-t"; txt "--time"] "time" false true].

Definition display_parser : list argument := file_parser.

Definition select_parser : list argument :=
  file_parser ++
  [Argument [txt "-s"; txt "--select"] "select" false true].

(** [str(Path.cwd() / "trains.db")] *)
Definition default_db (cwd : str) : str :=
  if bool_decide (cwd = txt "/") then txt "/trains.db"
  else cwd ++ txt "/trains.db".

(** The namespace before any argument is read: every [dest] at its
    default. *)
Definition defaults (cwd : str) (parser : list argument) : namespace :=
  foldr (λ a ns,
           <[dest a :=
               if bool_decide (dest a = "db") then PStr (default_db cwd)
               else PNone]> ns)
        ∅ parser.

Definition starts_with_dash (s : str) : bool :=
  match s with
  | c :: _ => bool_decide (c = DASH)
  | [] => false
  end.

(** A dash and then digits only: argparse reads it as a value, not as an
    option. *)
Definition negative_number_like (s : str) : bool :=
  match s with
  | c :: d :: rest => bool_decide (c = DASH) && forallb is_digit (d :: rest)
  | _ => false
  end.

(** The digits of a signed decimal text. *)
Definition digits_of (s : str) : str :=
  match s with
  | c :: rest =>
      if bool_decide (c = DASH) || bool_decide (c = 43%N) then rest else s
  | [] => []
  end.

(** [sys.get_int_max_str_digits()], at its default. *)
Definition int_max_str_digits : Z := 4300.

(** [int(s)] on an optional sign and decimal digits.  A text of more than
    4300 digits is refused with [ValueError], as is one that is no
    number. *)
Definition py_int (s : str) : option Z :=
  if bool_decide (Z.of_nat (length (digits_of s)) ≤ int_max_str_digits)
  then read_int s
  else None.

Inductive parsed :=
| Parsed (args : namespace)
| Version
| UsageError
| NotCovered.

Definition find_argument (parser : list argument) (tok : str)
  : option argument :=
  head (filter (λ a, tok ∈ option_strings a) parser).

(** The arguments after the subcommand.  [seen] collects the [dest]s
    given; a required one that is missing is a usage error. *)
Fixpoint parse_known (parser : list argument) (ns : namespace)
    (seen : list string) (argv : list str) : parsed :=
  match argv with
  | [] =>
      if forallb (λ a, negb (required a) || bool_decide (dest a ∈ seen)) parser
      then Parsed ns
      else UsageError
  | tok :: rest =>
      match find_argument parser tok with
      | None => if starts_with_dash tok then NotCovered else UsageError
      | Some a =>
          match rest with
          | [] => UsageError
          | v :: rest' =>
              if starts_with_dash v && negb (negative_number_like v) then
                if bool_decide (is_Some (find_argument parser v))
                then UsageError
                else NotCovered
              else if type_int a then
                match py_int v with
                | Some n =>
                    parse_known parser (<[dest a := PInt n]> ns)
                                (dest a :: seen) rest'
                | None =>
                    if bool_decide (is_Some (read_int v)) then UsageError
                    else NotCovered
                end
              else
                parse_known parser (<[dest a := PStr v]> ns)
                            (dest a :: seen) rest'
          end
      end
  end.

(** [parser.parse_args(command_line)].  Without a subcommand only
    [command] is set, to [None]. *)
Definition parse_args (cwd : str) (command_line : list str) : parsed :=
  match command_line with
  | [] => Parsed {[ "command" := PNone ]}
  | tok :: rest =>
      if bool_decide (tok = txt "--version") then Version
      else if bool_decide (tok = txt "add") then
        parse_known add_parser
          (<["command" := PStr (txt "add")]> (defaults cwd add_parser)) [] rest
      else if bool_decide (tok = txt "display") then
        parse_known display_parser
          (<["command" := PStr (txt "display")]> (defaults cwd display_parser))
          [] rest
      else if bool_decide (tok = txt "select") then
        parse_known select_parser
          (<["command" := PStr (txt "select")]> (defaults cwd select_parser))
          [] rest
      else if starts_with_dash tok then NotCovered
      else UsageError
  end.

(** [args.name] *)
Definition attr {S} (args : namespace) (name : string) : M S pyval :=
  match args !! name with
  | Some v => ret v
  | None => raise (AttributeError name)
  end.

(** [Path(value)], kept as the text of the path. *)
Definition Path {S} (v : pyval) : M S str :=
  match v with
  | PStr p => ret p
  | _ => raise TypeError
  end.

(** How an invocation ends. *)
Inductive outcome :=
| Returned
| Raised (e : exn)
| Exited (status : Z)
| Uncovered.

Section Main.
Context `{Engine}.

(** [main] from [db_path = Path(args.db)] on; the result is what the
    command prints. *)
Definition run (args : namespace) : M files (list str) :=
  let! db := attr args "db" in
  let! db_path := Path db in
  create_db db_path ;;;
  let! command := attr args "command" in
  if bool_decide (command = PStr (txt "add")) then
    let! punkt := attr args "punkt" in
    let! nomer := attr args "nomer" in
    let! time := attr args "time" in
    add_train db_path punkt nomer time ;;;
    ret []
  else if bool_decide (command = PStr (txt "display")) then
    let! rows := select_all db_path in
    ret (display_trains rows)
  else if bool_decide (command = PStr (txt "select")) then
    let! nomer := attr args "select" in
    let! rows := select_by_num db_path nomer in
    ret (display_trains rows)
  else ret [].

(** One invocation: how it ends, what it prints, the files it leaves. *)
Definition main (cwd : str) (command_line : list str) (fs : files)
  : outcome * list str * files :=
  match parse_args cwd command_line with
  | Version => (Exited 0, [txt "trains 0.1.0"], fs)
  | UsageError => (Exited 2, [], fs)
  | NotCovered => (Uncovered, [], fs)
  | Parsed args =>
      match run args fs with
      | (Ok printed, fs') => (Returned, printed, fs')
      | (Raise e, fs') => (Raised e, [], fs')
      end
  end.
End Main.

(** ** Notions used by the properties *)

(** A row-mapping none of whose fields contains a line break. *)
Definition single_line (t : train) : Prop :=
  (LF ∉ get t "punkt") ∧ (LF ∉ get t "nomer") ∧ (LF ∉ get t "time").

(** The rows of a table, none when the table does not exist. *)
Definition rows_of_groups (db : database) : list group_row :=
  default [] (groups db).
Definition rows_of_trains (db : database) : list train_row :=
  default [] (trains db).

(** The two sequences and the two tables exist. *)
Definition schema_present (db : database) : Prop :=
  is_Some (type_st db) ∧ is_Some (train_st db) ∧
  is_Some (groups db) ∧ is_Some (trains db).

(** What holds of every file the program has written. *)
Record consistent (db : database) : Prop := Consistent {
  shape : db = empty_db ∨ schema_present db;
  foreign_key_holds :
    ∀ t, t ∈ rows_of_trains db →
         trains_foreign_key t ∈ ids_of_groups (rows_of_groups db);
  nomer_is_group_id :
    ∀ t, t ∈ rows_of_trains db →
         t_train_nomer t ∈ ids_of_groups (rows_of_groups db);
  titles_distinct : NoDup (g_train_title <$> rows_of_groups db);
  group_ids_drawn :
    ∀ s g, type_st db = Some s → g ∈ rows_of_groups db →
           g_train_id g < seq_next s;
  train_ids_drawn :
    ∀ s t, train_st db = Some s → t ∈ rows_of_trains db →
           t_train_id t < seq_next s
}.

Definition files_consistent (fs : files) : Prop :=
  ∀ path db, fs !! path = Some db → consistent db.

(** The calls a run of the program is made of. *)
Inductive call :=
| CreateDb (path : str)
| AddTrain (path : str) (punkt nomer time : pyval)
| SelectAll (path : str)
| SelectByNum (path : str) (nomer : pyval).

Section Reachable.
Context `{Engine}.

(** The files a call leaves, whether it returns or raises. *)
Definition after (c : call) (fs : files) : files :=
  match c with
  | CreateDb path => (create_db path fs).2
  | AddTrain path punkt nomer time => (add_train path punkt nomer time fs).2
  | SelectAll path => (select_all path fs).2
  | SelectByNum path nomer => (select_by_num path nomer fs).2
  end.
End Reachable.

(** The states the program's operations produce, from a machine with no
    database file.  What the engine leaves open may differ from one call
    to the next. *)
Inductive reachable : files → Prop :=
| reachable_start : reachable ∅
| reachable_call (E : Engine) fs c :
    reachable fs → reachable (@after E c fs).

(** One [add_train] call with an integer train number, and the engine's
    choices during it. *)
Record add_call := AddCall {
  call_engine : Engine;
  call_punkt : pyval;
  call_nomer : Z;
  call_time : pyval
}.

(** [add_train] called in turn for each of the calls. *)
Definition add_trains (path : str) (calls : list add_call) (fs : files)
  : files :=
  foldl (λ fs c,
           (@add_train (call_engine c) path (call_punkt c)
                       (PInt (call_nomer c)) (call_time c) fs).2)
        fs calls.

(** The train numbers of a series of [add_train] calls. *)
Definition nomers (calls : list add_call) : list Z := call_nomer <$> calls.


(** Two engines: one keeps the value a rejected INSERT has drawn, one
    gives it back.  Both refuse integers of more than 64 bits. *)
Definition engine_keeps : Engine :=
  {| rejected_insert_keeps_nextval := true;
     wide_integer_range := λ _, None;
     filter_before_join := true |}.
Definition engine_restores : Engine :=
  {| rejected_insert_keeps_nextval := false;
     wide_integer_range := λ _, None;
     filter_before_join := false |}.

Definition trains_db : str := txt "trains.db".
Definition moscow_added (E : Engine) : files :=
  after (AddTrain trains_db (PStr (txt "Moscow")) (PInt 101) (PStr (txt "14:30")))
        (after (CreateDb trains_db) ∅).
Definition kazan_added (E : Engine) : result unit * files :=
  add_train trains_db (PStr (txt "Kazan")) (PInt 101) (PStr (txt "09:00"))
            (moscow_added E).

Definition home : str := txt "/home/user".
Definition argv (words : list string) : list str := txt <$> words.
(** The four invocations of the example scenario, on a machine with no
    database file. *)
Definition scenario_add_moscow (E : Engine) :=
  main home (argv ["add"; "-p"; "Moscow"; "-n"; "101"; "-t"; "14:30"]) ∅.
Definition scenario_display (E : Engine) :=
  main home (argv ["display"]) (scenario_add_moscow E).2.
Definition scenario_add_kazan (E : Engine) :=
  main home (argv ["add"; "-p"; "Kazan"; "-n"; "101"; "-t"; "09:00"])
       (scenario_display E).2.
Definition scenario_select (E : Engine) :=
  main home (argv ["select"; "-s"; "101"]) (scenario_add_kazan E).2.


(** Two calls, the first with a number that is bound as BIGINT. *)
Definition wide_then_narrow : list add_call :=
  [AddCall engine_keeps (PStr (txt "Moscow")) 2147483648 (PStr (txt "14:30"));
   AddCall engine_keeps (PStr (txt "Kazan")) 5 (PStr (txt "09:00"))].

(** ** Notions used by the further properties *)

(** The primary keys of both tables are pairwise distinct. *)
Definition keys_unique (db : database) : Prop :=
  NoDup (ids_of_groups (rows_of_groups db)) ∧
  NoDup (ids_of_trains (rows_of_trains db)).

(** The text a parameter is stored as, for one that is not [None]. *)
Definition text_of (v : pyval) : str := default [] (to_text v).

(** The file after [add_train] calls that all went through: the i-th call
    has drawn the id i from both sequences. *)
Definition groups_after (calls : list add_call) : list group_row :=
  imap (λ i c, GroupRow (Z.of_nat i + 1) (py_str (call_nomer c))) calls.

(** The i-th train row has the id i and refers to the group of id i. *)
Definition trains_after (calls : list add_call) : list train_row :=
  imap (λ i c, TrainRow (Z.of_nat i + 1) (text_of (call_punkt c))
                        (Z.of_nat i + 1) (text_of (call_time c))) calls.

(** [currval] after k draws. *)
Definition last_drawn (k : nat) : option Z :=
  match k with
  | O => None
  | S _ => Some (Z.of_nat k)
  end.

(** Both sequences have given k values; both tables have k rows. *)
Definition db_after (calls : list add_call) : database :=
  let k := length calls in
  Database (Some (Sequence (Z.of_nat k + 1) (last_drawn k)))
           (Some (Sequence (Z.of_nat k + 1) (last_drawn k)))
           (Some (groups_after calls)) (Some (trains_after calls)).


(** A row-mapping whose three fields fit their columns. *)
Definition fits (t : train) : Prop :=
  (length (get t "punkt") ≤ 30)%nat ∧ (length (get t "nomer") ≤ 20)%nat ∧
  (length (get t "time") ≤ 19)%nat.


(** An argument that argparse takes as the value of an option. *)
Definition value_token (v : str) : Prop :=
  starts_with_dash v && negb (negative_number_like v) = false.




(** The file with the empty schema, and one record for the table. *)
Definition created (E : Engine) : files := @after E (CreateDb trains_db) ∅.
Definition moscow_row : train :=
  row_dict (txt "Moscow", txt "101", txt "14:30").

(** * Properties *)

(** ** Text *)

Lemma count_char_app c (a b : str) :
  count_char c (a ++ b) = (count_char c a + count_char c b)%nat.
Proof. unfold count_char. by rewrite filter_app, length_app. Qed.

Lemma count_char_absent c (s : str) : c ∉ s → count_char c s = 0%nat.
Proof.
  unfold count_char. induction s as [|x s IH]; [done|].
  intros Hn. apply not_elem_of_cons in Hn as [Hx Hs].
  rewrite filter_cons_False by congruence. auto.
Qed.

Lemma count_char_replicate c x n :
  x ≠ c → count_char c (replicate n x) = 0%nat.
Proof.
  intros Hx. apply count_char_absent. intros Hin.
  apply elem_of_replicate in Hin as [-> _]. done.
Qed.

Lemma digits_no_LF d : LF ∉ txt (NilEmpty.string_of_uint d).
Proof.
  induction d; cbn; rewrite ?not_elem_of_cons; try (split; [done|]); try done.
  apply not_elem_of_nil.
Qed.

Lemma py_str_no_LF n : LF ∉ py_str n.
Proof.
  unfold py_str. destruct (Z.to_int n) as [d|d]; cbn.
  - destruct d; try apply digits_no_LF.
    cbn. rewrite not_elem_of_cons. split; [done | apply not_elem_of_nil].
  - apply not_elem_of_cons; split; [done|].
    destruct d; try apply digits_no_LF.
    cbn. rewrite not_elem_of_cons. split; [done | apply not_elem_of_nil].
Qed.

Lemma length_ljust w (s : str) : length (ljust w s) = (w `max` length s)%nat.
Proof. unfold ljust. rewrite length_app, length_replicate. lia. Qed.

Lemma ljust_long w (s : str) : (w ≤ length s)%nat → ljust w s = s.
Proof.
  intros Hw. unfold ljust.
  replace (w - length s)%nat with 0%nat by lia. apply app_nil_r.
Qed.

Lemma line_count_ljust w (s : str) : LF ∉ s → line_count (ljust w s) = 0%nat.
Proof.
  intros Hs. unfold line_count, ljust.
  rewrite count_char_app, count_char_replicate by done.
  by rewrite count_char_absent.
Qed.

Lemma line_count_rjust w (s : str) : LF ∉ s → line_count (rjust w s) = 0%nat.
Proof.
  intros Hs. unfold line_count, rjust.
  rewrite count_char_app, count_char_replicate by done.
  by rewrite count_char_absent.
Qed.

(** ** display_trains *)

Lemma length_data_rows idx trains :
  length (data_rows idx trains) = length trains.
Proof.
  revert idx. induction trains as [|t rest IH]; intros idx; cbn; [done|].
  by rewrite IH.
Qed.

Lemma length_display_trains t rest :
  length (display_trains (t :: rest)) = (length (t :: rest) + 4)%nat.
Proof.
  unfold display_trains.
  rewrite !length_app, length_data_rows. cbn. lia.
Qed.

Lemma line_count_stdout_of prints :
  Forall (λ s, line_count s = 0%nat) prints →
  line_count (stdout_of prints) = length prints.
Proof.
  unfold stdout_of, line_count.
  induction 1 as [|s prints Hs _ IH]; [done|].
  cbn [fmap list_fmap concat]. rewrite !count_char_app, Hs, IH. done.
Qed.

Lemma line_count_data_row idx t :
  single_line t → line_count (data_row idx t) = 0%nat.
Proof.
  intros (Hp & Hn & Ht). unfold data_row, line_count.
  rewrite !count_char_app.
  fold (line_count (rjust 4 (py_str idx))).
  fold (line_count (punkt_field t)).
  fold (line_count (nomer_field t)).
  fold (line_count (time_field t)).
  unfold punkt_field, nomer_field, time_field.
  rewrite line_count_rjust by apply py_str_no_LF.
  rewrite !line_count_ljust by done.
  reflexivity.
Qed.

Lemma line_count_data_rows idx trains :
  Forall single_line trains →
  Forall (λ s, line_count s = 0%nat) (data_rows idx trains).
Proof.
  intros Hall. revert idx.
  induction Hall as [|t rest Ht _ IH]; intros idx; cbn; constructor.
  - by apply line_count_data_row.
  - apply IH.
Qed.

(** C8, as the code has it.  Nothing is printed for the empty sequence.
    For N >= 1 records there are exactly N+4 [print] calls (rule, header,
    rule, N data rows, rule); the output has exactly N+4 lines when no
    destination, train number or time contains a line break. *)
Theorem display_trains_lines (trains : list train) :
  stdout_of (display_trains []) = [] ∧
  (trains ≠ [] →
     length (display_trains trains) = (length trains + 4)%nat ∧
     ∃ rows, display_trains trains = [line; header; line] ++ rows ++ [line] ∧
             length rows = length trains) ∧
  (trains ≠ [] → Forall single_line trains →
     line_count (stdout_of (display_trains trains))
     = (length trains + 4)%nat).
Proof.
  split; [reflexivity|]. split.
  - intros Hne. destruct trains as [|t rest]; [done|]. split.
    + apply length_display_trains.
    + exists (data_rows 1 (t :: rest)). split; [done|].
      apply length_data_rows.
  - intros Hne Hall. destruct trains as [|t rest]; [done|].
    rewrite line_count_stdout_of; [apply length_display_trains|].
    unfold display_trains.
    repeat (apply Forall_app; split);
      try (repeat constructor; reflexivity).
    by apply line_count_data_rows.
Qed.

Lemma display_trains_lines_witness :
  let trains : list train :=
    [ {[ "punkt" := txt "Moscow"; "nomer" := txt "101";
         "time" := txt "14:30" ]} ] in
  line_count (stdout_of (display_trains trains)) = 5%nat.
Proof.
  intros trains.
  apply (proj2 (proj2 (display_trains_lines trains))).
  - discriminate.
  - repeat constructor; vm_compute; intros Hin;
      repeat (apply elem_of_cons in Hin as [Hin|Hin]; [discriminate|]);
      by apply elem_of_nil in Hin.
Defined.

(** C8 as stated fails: one record whose destination holds a line break
    is printed as six lines, not five. *)
Lemma display_trains_lines_counterexample :
  let trains : list train :=
    [ {[ "punkt" := [97; 10; 98]%N; "nomer" := txt "101";
         "time" := txt "14:30" ]} ] in
  line_count (stdout_of (display_trains trains)) = 6%nat ∧
  line_count (stdout_of (display_trains trains)) ≠ (length trains + 4)%nat.
Proof. vm_compute. split; [reflexivity | discriminate]. Qed.

(** C9, as the code has it.  The destination field of a data row is the
    destination followed by spaces up to 30 characters: exactly 30
    characters wide for a destination of at most 30 characters, and the
    whole destination, untruncated, for a longer one. *)
Theorem punkt_field_width (idx : Z) (t : train) :
  let punkt := get t "punkt" in
  data_row idx t
  = (txt "| " ++ rjust 4 (py_str idx) ++ txt " | ") ++ punkt_field t ++
    (txt " | " ++ nomer_field t ++ txt " |  " ++ time_field t ++ txt " |") ∧
  punkt_field t = punkt ++ replicate (30 - length punkt) SPACE ∧
  length (punkt_field t) = (30 `max` length punkt)%nat ∧
  ((length punkt ≤ 30)%nat → length (punkt_field t) = 30%nat) ∧
  ((30 < length punkt)%nat → punkt_field t = punkt).
Proof.
  intros punkt. split; [|split; [|split; [|split]]].
  - unfold data_row. by rewrite <- !app_assoc.
  - reflexivity.
  - apply length_ljust.
  - intros Hle. unfold punkt_field. rewrite length_ljust. fold punkt. lia.
  - intros Hlt. apply ljust_long. fold punkt. lia.
Qed.

Lemma punkt_field_width_witness :
  let t : train := {[ "punkt" := txt "Moscow" ]} in
  length (punkt_field t) = 30%nat ∧
  punkt_field (<["punkt" := replicate 31 120%N]> t)
  = get (<["punkt" := replicate 31 120%N]> t) "punkt".
Proof.
  intros t. split.
  - apply (proj1 (proj2 (proj2 (proj2 (punkt_field_width 1 t))))).
    vm_compute. lia.
  - apply (proj2 (proj2 (proj2 (proj2
             (punkt_field_width 1 (<["punkt" := replicate 31 120%N]> t)))))).
    vm_compute. lia.
Defined.

(** C9 as stated fails: a destination of 31 characters fills 31 characters
    of its row and is not cut to 30. *)
Lemma punkt_field_width_counterexample :
  let t : train := {[ "punkt" := replicate 31 120%N; "nomer" := txt "101";
                      "time" := txt "14:30" ]} in
  length (punkt_field t) = 31%nat ∧
  punkt_field t ≠ take 30 (get t "punkt") ∧
  length (data_row 1 t) = 88%nat ∧
  length (data_row 1 (<["punkt" := txt "Moscow"]> t)) = 87%nat.
Proof.
  vm_compute.
  split; [reflexivity | split; [discriminate | split; reflexivity]].
Qed.


(** ** Decimal text *)
















Lemma decimal_title_eq title m : decimal_title title = Some m → title = py_str m.
Proof.
  unfold decimal_title. destruct (read_int title) as [k|]; [|discriminate].
  case_bool_decide; [|discriminate]. by intros [= <-].
Qed.

(** ** The database statements *)

Section Database.
Context `{Engine}.

Lemma title_equals_to_text title v :
  title_equals title v = true ↔ to_text v = Some title.
Proof.
  destruct v as [|n|s]; cbn; [split; discriminate| |];
    rewrite bool_decide_eq_true; split; congruence.
Qed.

Lemma consistent_empty : consistent empty_db.
Proof.
  split; cbn; try (intros; exfalso; eapply not_elem_of_nil; eassumption).
  - by left.
  - apply NoDup_nil_2.
Qed.

(** What [create_db] leaves of a file: every object that exists is kept,
    every other one is created empty. *)
Lemma create_db_stmts_spec db :
  create_db_stmts db
  = (Ok (),
     Database (Some (default (Sequence 1 None) (type_st db)))
              (Some (default (Sequence 1 None) (train_st db)))
              (Some (default [] (groups db)))
              (Some (default [] (trains db)))).
Proof. by destruct db as [[?|] [?|] [?|] [?|]]. Qed.

Lemma create_db_stmts_present db :
  schema_present db → create_db_stmts db = (Ok (), db).
Proof.
  intros ([? ?] & [? ?] & [? ?] & [? ?]). rewrite create_db_stmts_spec.
  destruct db; cbn in *; by simplify_eq.
Qed.

Lemma create_db_stmts_consistent db :
  consistent db → consistent (create_db_stmts db).2.
Proof.
  intros Hc. destruct (shape _ Hc) as [->|Hp].
  - split; cbn; try (intros; exfalso; eapply not_elem_of_nil; eassumption).
    + right. repeat split; eauto.
    + apply NoDup_nil_2.
  - by rewrite create_db_stmts_present.
Qed.
Lemma lookup_error_bind v titles :
  lookup_error v titles = None → bind_error v = None.
Proof.
  destruct v as [|n|s]; cbn; [done| |done].
  by destruct (integer_range n).
Qed.

Lemma lookup_error_subset v titles titles' :
  titles' ⊆ titles → lookup_error v titles = None →
  lookup_error v titles' = None.
Proof.
  intros Hsub. destruct v as [|n|s]; cbn; [done| |done].
  destruct (integer_range n) as [range|]; [|done].
  destruct (forallb (title_fits range) titles) eqn:Hall; [|done].
  intros _. rewrite (proj2 (forallb_forall _ _)); [done|].
  intros t Ht. apply (proj1 (forallb_forall _ _) Hall).
  apply list_elem_of_In, Hsub. by apply list_elem_of_In.
Qed.

Lemma lookup_error_text s titles : lookup_error (PStr s) titles = None.
Proof. reflexivity. Qed.



Lemma select_group_id_unchanged v db : (select_group_id v db).2 = db.
Proof.
  unfold select_group_id. destruct (groups db); [|done].
  by destruct (lookup_error v _).
Qed.

Lemma select_group_id_bind v db r :
  (select_group_id v db).1 = Ok r → bind_error v = None.
Proof.
  unfold select_group_id. destruct (groups db) as [gs|]; [|discriminate].
  destruct (lookup_error v _) eqn:He; [discriminate|].
  intros _. by eapply lookup_error_bind.
Qed.

Lemma select_group_id_found v db id :
  (select_group_id v db).1 = Ok (Some id) →
  ∃ g, g ∈ rows_of_groups db ∧ g_train_id g = id ∧
       to_text v = Some (g_train_title g).
Proof.
  unfold select_group_id, rows_of_groups.
  destruct (groups db) as [gs|]; cbn; [|discriminate].
  destruct (lookup_error v _); cbn; [discriminate|].
  intros [= Hhd].
  destruct (head _) as [g|] eqn:Hg; cbn in Hhd; [|discriminate].
  apply head_Some in Hg as [rest Hg].
  assert (g ∈ filter (λ g, title_equals (g_train_title g) v = true) gs) as Hin
    by (rewrite Hg; left).
  apply list_elem_of_filter in Hin as [Ht Hin].
  exists g. split; [done|]. split; [congruence|].
  by apply title_equals_to_text.
Qed.

Lemma select_group_id_missing v db :
  (select_group_id v db).1 = Ok None →
  ∀ g, g ∈ rows_of_groups db → to_text v ≠ Some (g_train_title g).
Proof.
  unfold select_group_id, rows_of_groups.
  destruct (groups db) as [gs|]; cbn; [|discriminate].
  destruct (lookup_error v _); cbn; [discriminate|].
  intros [= Hhd] g Hin Ht.
  destruct (head _) as [g'|] eqn:Hg; [discriminate|].
  apply head_None in Hg.
  assert (g ∈ filter (λ g, title_equals (g_train_title g) v = true) gs) as Hf.
  { apply list_elem_of_filter. split; [|done]. by apply title_equals_to_text. }
  rewrite Hg in Hf. by apply not_elem_of_nil in Hf.
Qed.

Lemma schema_present_of_shape db :
  db = empty_db ∨ schema_present db →
  is_Some (type_st db) ∨ is_Some (train_st db) ∨
  is_Some (groups db) ∨ is_Some (trains db) →
  schema_present db.
Proof.
  intros [->|Hp] Hs; [|done]. cbn in Hs.
  destruct Hs as [[? [=]]|[[? [=]]|[[? [=]]|[? [=]]]]].
Qed.

Lemma consistent_advance_type db s :
  consistent db → type_st db = Some s →
  consistent (Database (Some (advance s)) (train_st db) (groups db) (trains db)).
Proof.
  intros [Hsh Hfk Hno Hti Hg Ht] Hs.
  assert (schema_present db) as (_ & ? & ? & ?)
    by (apply schema_present_of_shape; [done | left; eauto]).
  split; try done.
  - right. repeat split; eauto.
  - intros s' g [= <-] Hin. cbn. specialize (Hg s g Hs Hin). lia.
Qed.

Lemma consistent_advance_train db s :
  consistent db → train_st db = Some s →
  consistent (Database (type_st db) (Some (advance s)) (groups db) (trains db)).
Proof.
  intros [Hsh Hfk Hno Hti Hg Ht] Hs.
  assert (schema_present db) as (? & _ & ? & ?)
    by (apply schema_present_of_shape; [done | right; left; eauto]).
  split; try done.
  - right. repeat split; eauto.
  - intros s' t [= <-] Hin. cbn. specialize (Ht s t Hs Hin). lia.
Qed.

Lemma consistent_new_group db s gs title :
  consistent db → type_st db = Some s → groups db = Some gs →
  title ∉ g_train_title <$> gs →
  consistent (Database (Some (advance s)) (train_st db)
                       (Some (gs ++ [GroupRow (seq_next s) title]))
                       (trains db)).
Proof.
  intros [Hsh Hfk Hno Hti Hg Ht] Hs Hgs Hfresh.
  assert (schema_present db) as (_ & ? & ? & ?)
    by (apply schema_present_of_shape; [done | left; eauto]).
  unfold rows_of_groups, rows_of_trains, ids_of_groups in *.
  rewrite Hgs in *. cbn in *.
  split; cbn; try done.
  - right. repeat split; eauto.
  - intros t Hin. rewrite fmap_app, elem_of_app. left. by apply Hfk.
  - intros t Hin. rewrite fmap_app, elem_of_app. left. by apply Hno.
  - rewrite fmap_app. apply NoDup_app. split; [done|]. split.
    + intros x Hx Hx'. apply list_elem_of_singleton in Hx'. by subst.
    + apply NoDup_singleton.
  - intros s' g [= <-] Hin. cbn.
    apply elem_of_app in Hin as [Hin|Hin].
    + specialize (Hg s g Hs Hin). lia.
    + apply list_elem_of_singleton in Hin as ->. cbn. lia.
Qed.

Lemma consistent_new_train db s ts row :
  consistent db → train_st db = Some s → trains db = Some ts →
  t_train_id row = seq_next s →
  trains_foreign_key row ∈ ids_of_groups (rows_of_groups db) →
  t_train_nomer row ∈ ids_of_groups (rows_of_groups db) →
  consistent (Database (type_st db) (Some (advance s)) (groups db)
                       (Some (ts ++ [row]))).
Proof.
  intros [Hsh Hfk Hno Hti Hg Ht] Hs Hts Hid Hrow_fk Hrow_no.
  assert (schema_present db) as (? & _ & ? & ?)
    by (apply schema_present_of_shape; [done | right; left; eauto]).
  unfold rows_of_trains in *. rewrite Hts in *. cbn in *.
  split; cbn; try done.
  - right. repeat split; eauto.
  - intros t Hin. apply elem_of_app in Hin as [Hin|Hin]; [by apply Hfk|].
    by apply list_elem_of_singleton in Hin as ->.
  - intros t Hin. apply elem_of_app in Hin as [Hin|Hin]; [by apply Hno|].
    by apply list_elem_of_singleton in Hin as ->.
  - intros s' t [= <-] Hin. cbn.
    apply elem_of_app in Hin as [Hin|Hin].
    + specialize (Ht s t Hs Hin). lia.
    + apply list_elem_of_singleton in Hin as ->. lia.
Qed.

Lemma rejected_group_insert_consistent db s :
  consistent db → type_st db = Some s →
  consistent (rejected_group_insert db s).
Proof.
  intros Hc Hs. unfold rejected_group_insert.
  destruct rejected_insert_keeps_nextval; [|done].
  by apply consistent_advance_type.
Qed.

Lemma rejected_train_insert_consistent db s :
  consistent db → train_st db = Some s →
  consistent (rejected_train_insert db s).
Proof.
  intros Hc Hs. unfold rejected_train_insert.
  destruct rejected_insert_keeps_nextval; [|done].
  by apply consistent_advance_train.
Qed.

Lemma fresh_group_id db s gs :
  consistent db → type_st db = Some s → groups db = Some gs →
  seq_next s ∉ ids_of_groups gs.
Proof.
  intros Hc Hs Hgs Hin. unfold ids_of_groups in Hin.
  apply list_elem_of_fmap in Hin as (g & Hid & Hin).
  pose proof (group_ids_drawn _ Hc s g Hs) as Hlt.
  unfold rows_of_groups in Hlt. rewrite Hgs in Hlt. specialize (Hlt Hin). lia.
Qed.

Lemma fresh_train_id db s ts :
  consistent db → train_st db = Some s → trains db = Some ts →
  seq_next s ∉ ids_of_trains ts.
Proof.
  intros Hc Hs Hts Hin. unfold ids_of_trains in Hin.
  apply list_elem_of_fmap in Hin as (t & Hid & Hin).
  pose proof (train_ids_drawn _ Hc s t Hs) as Hlt.
  unfold rows_of_trains in Hlt. rewrite Hts in Hlt. specialize (Hlt Hin). lia.
Qed.

(** On a consistent file the INSERT into [groups] is rejected for a NULL
    title only; otherwise it appends the row with the drawn id. *)
Lemma insert_group_spec v db s gs :
  consistent db → type_st db = Some s → groups db = Some gs →
  bind_error v = None →
  insert_group v db
  = match to_text v with
    | None => (Raise (ConstraintError "groups" NotNull),
               rejected_group_insert db s)
    | Some title =>
        (Ok (), Database (Some (advance s)) (train_st db)
                         (Some (gs ++ [GroupRow (seq_next s) title]))
                         (trains db))
    end.
Proof.
  intros Hc Hs Hgs Hb. unfold insert_group. rewrite Hs, Hgs, Hb.
  destruct (to_text v) as [title|]; [|done].
  rewrite bool_decide_eq_false_2; [done|].
  by eapply fresh_group_id.
Qed.

Lemma insert_group_consistent v db :
  consistent db →
  (∀ g, g ∈ rows_of_groups db → to_text v ≠ Some (g_train_title g)) →
  consistent (insert_group v db).2.
Proof.
  intros Hc Hnew.
  destruct (groups db) as [gs|] eqn:Hgs;
    [|by unfold insert_group; rewrite Hgs].
  destruct (type_st db) as [s|] eqn:Hs;
    [|by unfold insert_group; rewrite Hgs, Hs].
  destruct (bind_error v) as [e|] eqn:Hb;
    [by unfold insert_group; rewrite Hgs, Hs, Hb|].
  rewrite (insert_group_spec v db s gs) by done.
  destruct (to_text v) as [title|] eqn:Hv; cbn.
  - apply consistent_new_group; try done.
    intros Hin. apply list_elem_of_fmap in Hin as (g & -> & Hin).
    apply (Hnew g); [|done]. unfold rows_of_groups. by rewrite Hgs.
  - by apply rejected_group_insert_consistent.
Qed.

Lemma insert_train_consistent punkt nomer time db :
  consistent db →
  nomer ∈ ids_of_groups (rows_of_groups db) →
  consistent (insert_train punkt nomer time db).2.
Proof.
  intros Hc Hnomer. unfold insert_train.
  destruct (trains db) as [ts|] eqn:Hts; [|done].
  destruct (groups db) as [gs|] eqn:Hgs; [|done].
  destruct (train_st db) as [s|] eqn:Hs; [|done].
  destruct (to_text punkt) as [p|], (to_text time) as [t|]; cbn;
    try by apply rejected_train_insert_consistent.
  case_bool_decide; cbn; [by apply rejected_train_insert_consistent|].
  case_bool_decide as Hfk; cbn; [|by apply rejected_train_insert_consistent].
  rewrite <- Hgs. apply consistent_new_train; try done.
  unfold rows_of_groups. by rewrite Hgs.
Qed.

Lemma currval_type_st_unchanged db : (currval_type_st db).2 = db.
Proof.
  unfold currval_type_st. destruct (type_st db) as [s|]; [|done].
  by destruct (seq_last s).
Qed.

Lemma add_train_stmts_consistent punkt nomer time db :
  consistent db → consistent (add_train_stmts punkt nomer time db).2.
Proof.
  intros Hc. unfold add_train_stmts, bind.
  pose proof (select_group_id_unchanged nomer db) as Hsame.
  destruct (select_group_id nomer db) as [[[id|]|e] db1] eqn:Hsel;
    cbn in Hsame; subst db1; [| |done].
  - cbn. apply insert_train_consistent; [done|].
    destruct (select_group_id_found nomer db id) as (g & Hin & <- & _);
      [by rewrite Hsel|].
    unfold ids_of_groups. apply list_elem_of_fmap. eauto.
  - pose proof (select_group_id_missing nomer db) as Hmiss.
    rewrite Hsel in Hmiss. specialize (Hmiss eq_refl).
    pose proof (insert_group_consistent nomer db Hc Hmiss) as Hc1.
    destruct (groups db) as [gs|] eqn:Hgs;
      [|by unfold insert_group; rewrite Hgs].
    destruct (type_st db) as [s|] eqn:Hs;
      [|by unfold insert_group; rewrite Hgs, Hs].
    assert (bind_error nomer = None) as Hb
      by (eapply (select_group_id_bind nomer db); by rewrite Hsel).
    rewrite (insert_group_spec nomer db s gs) in * by done.
    destruct (to_text nomer) as [title|]; [|done]. cbn in Hc1.
    cbn. apply insert_train_consistent; [done|].
    unfold rows_of_groups, ids_of_groups. cbn.
    rewrite fmap_app, elem_of_app. right. cbn. left.
Qed.
Lemma select_all_stmts_unchanged db : (select_all_stmts db).2 = db.
Proof.
  unfold select_all_stmts, bind, select_join.
  by destruct (trains db), (groups db).
Qed.

Lemma select_by_num_stmts_unchanged v db : (select_by_num_stmts v db).2 = db.
Proof.
  unfold select_by_num_stmts, bind, select_join_where.
  destruct (trains db), (groups db); try done.
  cbn zeta. by destruct (lookup_error v _).
Qed.

Lemma connect_consistent path fs :
  files_consistent fs → consistent (connect path fs).
Proof.
  intros Hfs. unfold connect.
  destruct (fs !! path) as [db|] eqn:Hdb; cbn; [by eapply Hfs|].
  apply consistent_empty.
Qed.

Lemma with_connection_consistent {A} path (body : M database A) fs :
  (∀ db, consistent db → consistent (body db).2) →
  files_consistent fs →
  files_consistent (with_connection path body fs).2.
Proof.
  intros Hbody Hfs p db. unfold with_connection. cbn.
  destruct (decide (path = p)) as [->|Hne].
  - rewrite lookup_insert_eq. intros [= <-].
    by apply Hbody, connect_consistent.
  - rewrite lookup_insert_ne by done. apply Hfs.
Qed.

Lemma after_consistent c fs :
  files_consistent fs → files_consistent (after c fs).
Proof.
  intros Hfs. destruct c; cbn; apply with_connection_consistent; try done.
  - apply create_db_stmts_consistent.
  - apply add_train_stmts_consistent.
  - intros db. by rewrite select_all_stmts_unchanged.
  - intros db. by rewrite select_by_num_stmts_unchanged.
Qed.

End Database.

Lemma reachable_consistent fs : reachable fs → files_consistent fs.
Proof.
  induction 1 as [|E fs c _ IH].
  - intros p db. by rewrite lookup_empty.
  - by apply after_consistent.
Qed.

Section Invariant.
Context `{Engine}.

(** C6.  In every reachable state each [trains] row has the primary key of
    some [groups] row, the column the schema's foreign key names being
    [train_id]; and the INSERT into [trains] is rejected whenever the next
    value of [train_st] is the id of no [groups] row: the table is left as
    it was, and the violated constraint is the foreign key unless a text
    parameter is NULL. *)
Theorem trains_id_references_group :
  (∀ r, trains_foreign_key r = t_train_id r) ∧
  (∀ fs path db,
     reachable fs → fs !! path = Some db →
     ∀ t, t ∈ rows_of_trains db →
          ∃ g, g ∈ rows_of_groups db ∧ g_train_id g = t_train_id t) ∧
  (∀ db ts gs s punkt nomer time,
     trains db = Some ts → groups db = Some gs → train_st db = Some s →
     seq_next s ∉ ids_of_groups gs →
     ∃ c, (insert_train punkt nomer time db).1
          = Raise (ConstraintError "trains" c) ∧
          trains (insert_train punkt nomer time db).2 = Some ts ∧
          (c = NotNull ↔ to_text punkt = None ∨ to_text time = None) ∧
          (consistent db → c ≠ NotNull → c = ForeignKey)).
Proof.
  split; [done|]. split.
  - intros fs path db Hr Hdb t Hin.
    pose proof (reachable_consistent fs Hr path db Hdb) as Hc.
    pose proof (foreign_key_holds _ Hc t Hin) as Hfk.
    unfold ids_of_groups in Hfk.
    apply list_elem_of_fmap in Hfk as (g & Hid & Hg). eauto.
  - intros db ts gs s punkt nomer time Hts Hgs Hs Hfree.
    assert (trains (rejected_train_insert db s) = Some ts) as Hrej.
    { unfold rejected_train_insert.
      by destruct rejected_insert_keeps_nextval. }
    unfold insert_train. rewrite Hts, Hgs, Hs.
    destruct (to_text punkt) as [p|] eqn:Hp, (to_text time) as [t|] eqn:Ht;
      cbn.
    2-4: exists NotNull; repeat split; auto; try (intros; congruence).
    case_bool_decide as Hpk; cbn.
    + exists PrimaryKey. repeat split; auto; try (intros; congruence).
      * intros [[=]|[=]].
      * intros Hc _. exfalso. by eapply fresh_train_id.
    + rewrite bool_decide_eq_false_2 by done. cbn.
      exists ForeignKey. repeat split; auto; try (intros; congruence).
      intros [[=]|[=]].
Qed.



Lemma connect_with_connection {A} path (body : M database A) fs :
  connect path (with_connection path body fs).2 = (body (connect path fs)).2.
Proof. unfold with_connection, connect. cbn. by rewrite lookup_insert_eq. Qed.

Lemma create_db_ok path fs : (create_db path fs).1 = Ok ().
Proof.
  unfold create_db, with_connection. cbn. by rewrite create_db_stmts_spec.
Qed.

Lemma after_create_db path fs :
  after (CreateDb path) fs = (with_connection path create_db_stmts fs).2.
Proof. reflexivity. Qed.

Lemma create_db_schema_present path fs :
  schema_present (connect path (after (CreateDb path) fs)).
Proof.
  rewrite after_create_db, connect_with_connection, create_db_stmts_spec.
  cbn. repeat split; eauto.
Qed.

Lemma create_db_twice path fs :
  after (CreateDb path) (after (CreateDb path) fs) = after (CreateDb path) fs.
Proof.
  pose proof (create_db_schema_present path fs) as Hp.
  rewrite (after_create_db path (after _ fs)).
  unfold with_connection at 1. cbn [snd fst].
  rewrite (create_db_stmts_present _ Hp). cbn [snd].
  rewrite after_create_db in *. rewrite connect_with_connection.
  unfold with_connection. cbn [snd fst]. by rewrite insert_insert_eq.
Qed.

(** C7.  Calling [create_db] N >= 1 times on a path leaves exactly the
    files that one call leaves, whatever was there before; no call raises;
    and afterwards both sequences and both tables exist. *)
Theorem create_db_idempotent (N : nat) (path : str) (fs : files) :
  (1 ≤ N)%nat →
  Nat.iter N (after (CreateDb path)) fs = after (CreateDb path) fs ∧
  (∀ k, (create_db path (Nat.iter k (after (CreateDb path)) fs)).1 = Ok ()) ∧
  schema_present (connect path (Nat.iter N (after (CreateDb path)) fs)).
Proof.
  intros HN.
  assert (Nat.iter N (after (CreateDb path)) fs = after (CreateDb path) fs)
    as Hiter.
  { destruct N as [|n]; [lia|]. clear HN.
    induction n as [|n IH]; [done|].
    change (Nat.iter (S (S n)) (after (CreateDb path)) fs)
      with (after (CreateDb path) (Nat.iter (S n) (after (CreateDb path)) fs)).
    rewrite IH. apply create_db_twice. }
  split; [done|]. split.
  - intros k. apply create_db_ok.
  - rewrite Hiter. apply create_db_schema_present.
Qed.

Lemma get_row_dict_nomer row : get (row_dict row) "nomer" = row.1.2.
Proof. reflexivity. Qed.

Lemma filter_row_dict v (rows : list (str * str * str)) :
  filter (λ t, title_equals (get t "nomer") v = true) (row_dict <$> rows)
  = row_dict <$> filter (λ r, title_equals r.1.2 v = true) rows.
Proof.
  induction rows as [|r rows IH]; [done|]. cbn [fmap list_fmap].
  destruct (title_equals r.1.2 v) eqn:Hr.
  - rewrite !filter_cons_True by (by rewrite ?get_row_dict_nomer).
    cbn. by rewrite <- IH.
  - rewrite !filter_cons_False
      by (rewrite ?get_row_dict_nomer; congruence).
    done.
Qed.

Lemma insert_train_groups punkt nomer time db :
  groups (insert_train punkt nomer time db).2 = groups db.
Proof.
  unfold insert_train, rejected_train_insert.
  destruct (trains db), (groups db) eqn:Hgs, (train_st db);
    rewrite ?Hgs; try done.
  destruct (to_text punkt), (to_text time); cbn;
    repeat case_bool_decide; cbn;
    destruct rejected_insert_keeps_nextval; done.
Qed.


Lemma select_group_id_eq v db :
  select_group_id v db = ((select_group_id v db).1, db).
Proof.
  rewrite <- (select_group_id_unchanged v db) at 3. apply surjective_pairing.
Qed.






Lemma filter_none {A} (P : A → Prop) `{∀ x, Decision (P x)} (l : list A) :
  (∀ x, x ∈ l → ¬ P x) → filter P l = [].
Proof.
  induction l as [|x l IH]; intros Hall; [done|].
  rewrite filter_cons_False by (apply Hall; left).
  apply IH. intros y Hy. apply Hall. by right.
Qed.

Lemma join_rows_title ts gs r :
  r ∈ join_rows ts gs → r.1.2 ∈ g_train_title <$> gs.
Proof.
  unfold join_rows. intros Hin.
  apply list_elem_of_bind in Hin as (t & Hin & _).
  apply list_elem_of_bind in Hin as (g & Hin & Hg).
  apply list_elem_of_singleton in Hin as ->. cbn.
  apply list_elem_of_filter in Hg as [_ Hg].
  apply list_elem_of_fmap. eauto.
Qed.

End Invariant.

(** ** Series of [add_train] calls *)





(** ** The two queries *)

Section Queries.
Context `{Engine}.

Lemma select_all_eq path fs :
  select_all path fs
  = ((select_all_stmts (connect path fs)).1, <[path := connect path fs]> fs).
Proof.
  unfold select_all, with_connection.
  by rewrite select_all_stmts_unchanged.
Qed.

Lemma select_by_num_eq path v fs :
  select_by_num path v fs
  = ((select_by_num_stmts v (connect path fs)).1,
     <[path := connect path fs]> fs).
Proof.
  unfold select_by_num, with_connection.
  by rewrite select_by_num_stmts_unchanged.
Qed.

Lemma select_by_num_stmts_filter v db :
  lookup_error v (g_train_title <$> rows_of_groups db) = None →
  (select_by_num_stmts v db).1
  = match (select_all_stmts db).1 with
    | Ok rows =>
        Ok (filter (λ t, title_equals (get t "nomer") v = true) rows)
    | Raise e => Raise e
    end.
Proof.
  intros Hlook.
  unfold select_by_num_stmts, select_all_stmts, bind,
    select_join_where, select_join.
  destruct (trains db) as [ts|], (groups db) as [gs|] eqn:Hgs; try done.
  unfold rows_of_groups in Hlook. rewrite Hgs in Hlook. cbn in Hlook.
  cbn zeta.
  assert (lookup_error v
            (if filter_before_join then g_train_title <$> gs
             else (λ r, r.1.2) <$> join_rows ts gs) = None) as ->.
  { destruct filter_before_join; [done|].
    eapply lookup_error_subset; [|done].
    intros title Hin. apply list_elem_of_fmap in Hin as (r & -> & Hr).
    by eapply join_rows_title. }
  cbn. by rewrite filter_row_dict.
Qed.

Lemma filter_text_title s (rows : list train) :
  filter (λ t, title_equals (get t "nomer") (PStr s) = true) rows
  = filter (λ t, get t "nomer" = s) rows.
Proof.
  apply list_filter_iff. intros t. cbn. by rewrite bool_decide_eq_true.
Qed.


End Queries.

(** ** The command line *)

Lemma find_argument_elem parser tok a :
  find_argument parser tok = Some a → a ∈ parser.
Proof.
  unfold find_argument. intros Hhd. apply head_Some in Hhd as [rest Hf].
  assert (a ∈ filter (λ a, tok ∈ option_strings a) parser) as Hin
    by (rewrite Hf; left).
  by apply list_elem_of_filter in Hin as [_ Hin].
Qed.

(** The arguments of a subcommand never write an attribute that is not
    the [dest] of one of them. *)
Lemma parse_known_other_attr parser name :
  Forall (λ a, dest a ≠ name) parser →
  ∀ argv ns seen args,
    parse_known parser ns seen argv = Parsed args →
    args !! name = ns !! name.
Proof.
  intros Hdest argv.
  assert (∀ n argv, (length argv ≤ n)%nat → ∀ ns seen args,
            parse_known parser ns seen argv = Parsed args →
            args !! name = ns !! name) as Hgen; [|by eapply Hgen].
  clear argv. induction n as [|n IH]; intros argv Hlen ns seen args.
  - destruct argv; [|cbn in Hlen; lia]. cbn.
    destruct (forallb _ parser); [|discriminate]. by intros [= <-].
  - destruct argv as [|tok rest]; cbn.
    { destruct (forallb _ parser); [|discriminate]. by intros [= <-]. }
    destruct (find_argument parser tok) as [a|] eqn:Ha;
      [|by destruct (starts_with_dash tok)].
    assert (dest a ≠ name) as Hne.
    { apply find_argument_elem in Ha.
      by apply (proj1 (Forall_forall _ _) Hdest). }
    destruct rest as [|v rest']; [discriminate|].
    destruct (starts_with_dash v && negb (negative_number_like v)).
    { by case_bool_decide. }
    cbn in Hlen.
    destruct (type_int a).
    + destruct (py_int v) as [k|]; [|by case_bool_decide].
      intros Hp. apply IH in Hp; [|lia].
      by rewrite lookup_insert_ne in Hp.
    + intros Hp. apply IH in Hp; [|lia].
      by rewrite lookup_insert_ne in Hp.
Qed.

Lemma parse_args_no_command cwd command_line args :
  parse_args cwd command_line = Parsed args →
  args !! "command" = Some PNone →
  args = {[ "command" := PNone ]}.
Proof.
  destruct command_line as [|tok rest]; cbn; [by intros [= <-]|].
  repeat case_bool_decide; try discriminate;
    try (by destruct (starts_with_dash tok));
    intros Hp Hc;
    eapply (parse_known_other_attr _ "command") in Hp;
    try (rewrite Hp, lookup_insert_eq in Hc; discriminate);
    repeat constructor; cbn; discriminate.
Qed.

Section MainProperties.
Context `{Engine}.

(** C10.  When the command line parses and holds no subcommand, the
    parsed arguments have no [db] attribute, and [main] ends with an
    attribute error on [db], having printed nothing and with every file as
    it was: no database file has been opened or created. *)
Theorem no_subcommand_attribute_error cwd command_line args fs :
  parse_args cwd command_line = Parsed args →
  args !! "command" = Some PNone →
  args !! "db" = None ∧
  main cwd command_line fs = (Raised (AttributeError "db"), [], fs).
Proof.
  intros Hp Hc. pose proof (parse_args_no_command _ _ _ Hp Hc) as ->.
  split; [done|]. unfold main. by rewrite Hp.
Qed.
End MainProperties.

(** ** The example runs *)

(** C1 on the code.  After [add_train] of ("Moscow", 101, "14:30") on a
    new file, [groups] holds the row (1, "101") and the lookup for 101
    finds its id 1.  A second [add_train] for 101 is nevertheless rejected
    by the foreign key, which checks the new row's [train_id] 2 and not
    its [train_nomer] 1, and [trains] stays as it was.  The same
    constraint accepts a row whose [train_nomer] 99 is no group's id, as
    long as its [train_id] is one. *)
Theorem foreign_key_rejects_known_nomer (E : Engine) :
  let db := connect trains_db (moscow_added E) in
  rows_of_groups db = [GroupRow 1 (txt "101")] ∧
  rows_of_trains db = [TrainRow 1 (txt "Moscow") 1 (txt "14:30")] ∧
  (select_group_id (PInt 101) db).1 = Ok (Some 1) ∧
  (kazan_added E).1 = Raise (ConstraintError "trains" ForeignKey) ∧
  rows_of_trains (connect trains_db (kazan_added E).2) = rows_of_trains db ∧
  (insert_train (PStr (txt "Kazan")) 99 (PStr (txt "09:00"))
     (Database (Some (Sequence 2 (Some 1))) (Some (Sequence 1 None))
               (Some [GroupRow 1 (txt "101")]) (Some []))).1 = Ok ().
Proof. destruct E as [[|]]; vm_compute; repeat split; reflexivity. Qed.

(** C2 on the code.  In the state reached by adding ("Moscow", 101,
    "14:30"), [add_train] of ("Kazan", 101, "09:00") raises a foreign-key
    violation, and [select_all] then returns the Moscow row alone: no row
    with ("Kazan", 101, "09:00") is among its results. *)
Theorem add_train_select_all_rejected (E : Engine) :
  (kazan_added E).1 = Raise (ConstraintError "trains" ForeignKey) ∧
  (select_all trains_db (kazan_added E).2).1
  = Ok [row_dict (txt "Moscow", txt "101", txt "14:30")] ∧
  row_dict (txt "Kazan", txt "101", txt "09:00")
  ∉ [row_dict (txt "Moscow", txt "101", txt "14:30")].
Proof.
  destruct E as [[|]]; vm_compute; (split; [reflexivity|]);
    (split; [reflexivity|]); intros Hin;
    apply list_elem_of_singleton in Hin; discriminate.
Qed.

(** C3 on the code.  From no database file: the first [add] returns;
    [display] prints the table with the one data row (1, Moscow, 101,
    14:30); the second [add], for Kazan with the same number 101, ends
    with a foreign-key violation; [select -s 101] then prints one data
    row, not two; [groups] holds the single row (1, "101"). *)
Theorem scenario_second_add_rejected (E : Engine) :
  (scenario_add_moscow E).1 = (Returned, []) ∧
  (scenario_display E).1
  = (Returned,
     [line; header; line;
      txt "|    1 | Moscow                         | 101                  |  14:30               |";
      line]) ∧
  (scenario_add_kazan E).1
  = (Raised (ConstraintError "trains" ForeignKey), []) ∧
  (scenario_select E).1
  = (Returned,
     [line; header; line;
      txt "|    1 | Moscow                         | 101                  |  14:30               |";
      line]) ∧
  rows_of_groups (connect (default_db home) (scenario_select E).2)
  = [GroupRow 1 (txt "101")].
Proof. destruct E as [[|]]; vm_compute; repeat split; reflexivity. Qed.

(** ** Instances of the general results *)

Lemma trains_id_references_group_witness :
  (∃ g, g ∈ rows_of_groups (connect trains_db (moscow_added engine_keeps)) ∧
        g_train_id g = t_train_id (TrainRow 1 (txt "Moscow") 1 (txt "14:30"))) ∧
  (∃ c, (@insert_train engine_keeps (PStr (txt "Kazan")) 1
           (PStr (txt "09:00"))
           (connect trains_db (moscow_added engine_keeps))).1
        = Raise (ConstraintError "trains" c)).
Proof.
  split.
  - apply (proj1 (proj2 (@trains_id_references_group engine_keeps))
             (moscow_added engine_keeps) trains_db
             (connect trains_db (moscow_added engine_keeps))).
    + repeat constructor.
    + vm_compute. reflexivity.
    + vm_compute. left.
  - destruct (proj2 (proj2 (@trains_id_references_group engine_keeps))
             (connect trains_db (moscow_added engine_keeps))
             [TrainRow 1 (txt "Moscow") 1 (txt "14:30")]
             [GroupRow 1 (txt "101")]
             (Sequence 2 (Some 1))
             (PStr (txt "Kazan")) 1 (PStr (txt "09:00")))
      as (c & Hc & _).
    + vm_compute. reflexivity.
    + vm_compute. reflexivity.
    + vm_compute. reflexivity.
    + vm_compute. intros Hin. apply list_elem_of_singleton in Hin.
      discriminate.
    + exists c. exact Hc.
Defined.

Lemma create_db_idempotent_witness :
  Nat.iter 3 (@after engine_keeps (CreateDb trains_db)) ∅
  = @after engine_keeps (CreateDb trains_db) ∅.
Proof.
  apply (proj1 (@create_db_idempotent engine_keeps 3 trains_db ∅
                  ltac:(vm_compute; lia))).
Defined.


(** C4 as stated fails.  After [add_train] with the number 2147483648,
    which is bound as BIGINT, a call with the number 5 is bound as INTEGER:
    the lookup casts the stored title to INTEGER and ends with a
    conversion error, so the number 5 was supplied and no row of [groups]
    has its title. *)
Lemma one_group_per_nomer_counterexample :
  let fs1 := add_trains trains_db (take 1 wide_then_narrow)
                        (create_db trains_db ∅).2 in
  let fs := add_trains trains_db wide_then_narrow (create_db trains_db ∅).2 in
  nomers wide_then_narrow = [2147483648; 5] ∧
  (@add_train engine_keeps trains_db (PStr (txt "Kazan")) (PInt 5)
              (PStr (txt "09:00")) fs1).1 = Raise ConversionError ∧
  (@add_train engine_restores trains_db (PStr (txt "Kazan")) (PInt 5)
              (PStr (txt "09:00")) fs1).1 = Raise ConversionError ∧
  rows_of_groups (connect trains_db fs) = [GroupRow 1 (txt "2147483648")] ∧
  (py_str 5 ∉ g_train_title <$> rows_of_groups (connect trains_db fs)).
Proof.
  vm_compute. repeat (split; [reflexivity|]).
  intros Hin. apply list_elem_of_singleton in Hin. discriminate.
Qed.


(** C5 as stated fails.  After [add_train] with the number 2147483648,
    [select_all] returns its row, while [select_by_num] with the integer 5
    casts the stored title to INTEGER and ends with a conversion error:
    it neither raises exactly when [select_all] does nor returns the empty
    selection. *)
Lemma select_by_num_filters_select_all_counterexample :
  let fs := add_trains trains_db (take 1 wide_then_narrow)
                       (create_db trains_db ∅).2 in
  (select_all trains_db fs).1
  = Ok [row_dict (txt "Moscow", txt "2147483648", txt "14:30")] ∧
  (@select_by_num engine_keeps trains_db (PInt 5) fs).1
  = Raise ConversionError ∧
  (@select_by_num engine_restores trains_db (PInt 5) fs).1
  = Raise ConversionError.
Proof. vm_compute. repeat split; reflexivity. Qed.

Lemma no_subcommand_attribute_error_witness :
  @main engine_keeps home [] ∅ = (Raised (AttributeError "db"), [], ∅).
Proof.
  apply (@no_subcommand_attribute_error engine_keeps home []
           {[ "command" := PNone ]} ∅); reflexivity.
Defined.

(** * Further properties *)

(** ** Layout of the table, decimal text, command-line tokens *)

Lemma length_rjust w (s : str) : length (rjust w s) = (w `max` length s)%nat.
Proof. unfold rjust. rewrite length_app, length_replicate. lia. Qed.

Lemma length_txt s : length (txt s) = String.length s.
Proof.
  unfold txt. rewrite length_fmap.
  induction s as [|a s IH]; cbn; [done|]. by rewrite IH.
Qed.

Lemma py_str_short n : 0 ≤ n < 10000 → (length (py_str n) ≤ 4)%nat.
Proof.
  intros Hn.
  assert (forallb (λ k, length (py_str k) <=? 4)%nat (seqZ 0 10000) = true)
    as Hall by (vm_compute; reflexivity).
  rewrite forallb_forall in Hall.
  apply Nat.leb_le, Hall, list_elem_of_In, elem_of_seqZ. lia.
Qed.

Lemma data_rows_lookup idx trains i t :
  trains !! i = Some t →
  data_rows idx trains !! i = Some (data_row (idx + Z.of_nat i) t).
Proof.
  revert idx i. induction trains as [|t0 rest IH]; intros idx i Ht;
    [done|].
  destruct i as [|i].
  - cbn in *. simplify_eq. by rewrite Z.add_0_r.
  - change (rest !! i = Some t) in Ht.
    change (data_rows (idx + 1) rest !! i
            = Some (data_row (idx + Z.of_nat (S i)) t)).
    rewrite (IH _ _ Ht). do 2 f_equal. lia.
Qed.

(** X12.  [display_trains] prints the record at position i (from 0) as
    print number i + 3, numbered i + 1; the prints before the data rows are
    rule, header, rule, and the last one is the rule again. *)
Theorem display_trains_row_position trains i t :
  trains !! i = Some t →
  display_trains trains !! (3 + i)%nat
  = Some (data_row (Z.of_nat i + 1) t) ∧
  display_trains trains !! 0%nat = Some line ∧
  display_trains trains !! 1%nat = Some header ∧
  display_trains trains !! 2%nat = Some line ∧
  display_trains trains !! (3 + length trains)%nat = Some line.
Proof.
  intros Ht. destruct trains as [|t0 rest]; [done|].
  unfold display_trains. repeat split; try done.
  - change ((data_rows 1 (t0 :: rest) ++ [line]) !! i
            = Some (data_row (Z.of_nat i + 1) t)).
    rewrite lookup_app_l
      by (rewrite length_data_rows; by eapply lookup_lt_Some).
    rewrite (data_rows_lookup 1 _ i t Ht). do 2 f_equal. lia.
  - change ((data_rows 1 (t0 :: rest) ++ [line]) !! length (t0 :: rest)
            = Some line).
    rewrite lookup_app_r by (by rewrite length_data_rows).
    by rewrite length_data_rows, Nat.sub_diag.
Qed.

Lemma length_data_row idx t :
  (length (py_str idx) ≤ 4)%nat → fits t → length (data_row idx t) = 87%nat.
Proof.
  intros Hidx (Hp & Hn & Ht). unfold data_row.
  rewrite !length_app, !length_txt, length_rjust.
  unfold punkt_field, nomer_field, time_field. rewrite !length_ljust.
  cbn. lia.
Qed.

(** X13.  When there are fewer than 10000 records and every destination,
    number and time fits its column (30, 20 and 19 characters; a missing
    key counts as empty), every printed line is exactly 87 characters
    long, so the column borders line up. *)
Theorem display_trains_aligned trains :
  Z.of_nat (length trains) < 10000 → Forall fits trains →
  Forall (λ printed, length printed = 87%nat) (display_trains trains).
Proof.
  intros Hlen Hfit. apply Forall_lookup. intros j printed Hj.
  destruct trains as [|t0 rest]; [done|].
  remember (t0 :: rest) as trains eqn:Htr.
  assert (display_trains trains
          = [line; header; line] ++ data_rows 1 trains ++ [line]) as Hd
    by (by subst trains).
  rewrite Hd in Hj. clear Hd Htr.
  destruct j as [|[|[|j]]]; cbn in Hj; try (by simplify_eq).
  apply lookup_app_Some in Hj as [Hj|[_ Hj]].
  - assert (j < length trains)%nat as Hlt.
    { apply lookup_lt_Some in Hj. by rewrite length_data_rows in Hj. }
    destruct (lookup_lt_is_Some_2 trains j Hlt) as [t Ht].
    rewrite (data_rows_lookup 1 _ j t Ht) in Hj. simplify_eq.
    apply length_data_row.
    + apply py_str_short. lia.
    + by eapply (proj1 (Forall_lookup _ _) Hfit).
  - apply list_lookup_singleton_Some in Hj as [_ <-]. done.
Qed.

Lemma parse_known_nil parser ns seen :
  parse_known parser ns seen []
  = if forallb (λ a, negb (required a) || bool_decide (dest a ∈ seen)) parser
    then Parsed ns else UsageError.
Proof. reflexivity. Qed.

Lemma parse_known_text parser ns seen tok v rest a :
  find_argument parser tok = Some a → type_int a = false →
  value_token v →
  parse_known parser ns seen (tok :: v :: rest)
  = parse_known parser (<[dest a := PStr v]> ns) (dest a :: seen) rest.
Proof.
  intros Ha Hty Hv. unfold value_token in Hv.
  unfold parse_known; fold parse_known. by rewrite Ha, Hv, Hty.
Qed.


(** [add -p punkt -t time], without [-n]. *)
Lemma parse_args_add_without_nomer cwd punkt time :
  value_token punkt → value_token time →
  parse_args cwd [txt "add"; txt "-p"; punkt; txt "-t"; time]
  = Parsed (<["time" := PStr time]>
              (<["punkt" := PStr punkt]>
                 (<["command" := PStr (txt "add")]>
                    (defaults cwd add_parser)))).
Proof.
  intros Hp Ht. unfold parse_args.
  rewrite bool_decide_eq_false_2 by discriminate.
  rewrite bool_decide_eq_true_2 by done.
  rewrite (parse_known_text _ _ _ _ _ _
             (Argument [txt "-p"; txt "--punkt"] "punkt" false true));
    [|by vm_compute|done|done].
  rewrite (parse_known_text _ _ _ _ _ _
             (Argument [txt "-t"; txt "--time"] "time" false true));
    [|by vm_compute|done|done].
  reflexivity.
Qed.


Lemma defaults_add_parser cwd :
  defaults cwd add_parser
  = <["db" := PStr (default_db cwd)]>
      (<["punkt" := PNone]> (<["nomer" := PNone]> (<["time" := PNone]> ∅))).
Proof. reflexivity. Qed.

Lemma defaults_display_parser cwd :
  defaults cwd display_parser = <["db" := PStr (default_db cwd)]> ∅.
Proof. reflexivity. Qed.

Lemma defaults_select_parser cwd :
  defaults cwd select_parser
  = <["db" := PStr (default_db cwd)]> (<["select" := PNone]> ∅).
Proof. reflexivity. Qed.

(** ** The database functions and [main] *)

Section Further.
Context `{Engine}.

(** X1.  [select_all] and [select_by_num] are read-only: on a path that
    holds a database file they leave every file as it was, whether they
    return rows or raise. *)
Theorem selects_leave_existing_file path nomer fs db :
  fs !! path = Some db →
  (select_all path fs).2 = fs ∧ (select_by_num path nomer fs).2 = fs.
Proof.
  intros Hdb. rewrite select_all_eq, select_by_num_eq. cbn [snd].
  unfold connect. rewrite Hdb. cbn. by rewrite insert_id.
Qed.

(** X2.  On a path with no file, [add_train], [select_all] and
    [select_by_num] each create an empty database file there and raise a
    catalog error for the first table they touch: nothing creates the
    schema but [create_db]. *)
Theorem no_file_catalog_error path punkt nomer time fs :
  fs !! path = None →
  add_train path punkt nomer time fs
  = (Raise (CatalogError "groups"), <[path := empty_db]> fs) ∧
  select_all path fs
  = (Raise (CatalogError "trains"), <[path := empty_db]> fs) ∧
  select_by_num path nomer fs
  = (Raise (CatalogError "trains"), <[path := empty_db]> fs).
Proof.
  intros Hnone.
  unfold add_train, select_all, select_by_num, with_connection, connect.
  rewrite Hnone. done.
Qed.

Lemma add_train_stmts_none punkt time db s gs :
  type_st db = Some s → groups db = Some gs →
  add_train_stmts punkt PNone time db
  = (Raise (ConstraintError "groups" NotNull), rejected_group_insert db s).
Proof.
  intros Hs Hgs. unfold add_train_stmts, bind.
  rewrite select_group_id_eq. unfold select_group_id at 1. rewrite Hgs.
  cbn [fst lookup_error].
  rewrite (filter_none (λ g, title_equals (g_train_title g) PNone = true))
    by (intros g _; cbn; discriminate).
  cbn. unfold insert_group. by rewrite Hs, Hgs.
Qed.

(** X3.  [add_train] with [None] for the train number, on a file that has
    the schema, raises the NOT NULL violation of [groups.train_title]; the
    two tables of that file and all other files stay as they were. *)
Theorem add_train_without_nomer path punkt time fs :
  schema_present (connect path fs) →
  let out := add_train path punkt PNone time fs in
  out.1 = Raise (ConstraintError "groups" NotNull) ∧
  groups (connect path out.2) = groups (connect path fs) ∧
  trains (connect path out.2) = trains (connect path fs) ∧
  (∀ other, other ≠ path → out.2 !! other = fs !! other).
Proof.
  intros ([s Hs] & _ & [gs Hgs] & _) out. subst out.
  unfold add_train. rewrite connect_with_connection.
  unfold with_connection. cbn [fst snd].
  rewrite (add_train_stmts_none punkt time _ s gs) by done. cbn [fst snd].
  unfold rejected_group_insert.
  repeat split; try (by destruct rejected_insert_keeps_nextval).
  intros other Hne. by rewrite lookup_insert_ne.
Qed.

(** X4.  [create_db] never loses data: the rows of both tables are kept,
    a sequence that exists keeps its value, a missing one starts at 1, and
    a file that has the whole schema is left exactly as it was. *)
Theorem create_db_keeps_data path fs :
  let db := connect path fs in
  let db' := connect path (after (CreateDb path) fs) in
  rows_of_groups db' = rows_of_groups db ∧
  rows_of_trains db' = rows_of_trains db ∧
  (∀ s, type_st db = Some s → type_st db' = Some s) ∧
  (∀ s, train_st db = Some s → train_st db' = Some s) ∧
  (type_st db = None → type_st db' = Some (Sequence 1 None)) ∧
  (train_st db = None → train_st db' = Some (Sequence 1 None)) ∧
  (schema_present db → fs !! path = Some db → after (CreateDb path) fs = fs).
Proof.
  intros db db'. subst db'.
  rewrite after_create_db, connect_with_connection, create_db_stmts_spec.
  fold db. unfold rows_of_groups, rows_of_trains. cbn.
  repeat split; try (by intros ? ->); try (by intros ->).
  intros Hp Hdb. unfold with_connection. cbn [snd].
  fold db. rewrite (create_db_stmts_present _ Hp). cbn.
  by apply insert_id.
Qed.







Lemma insert_train_rows punkt nomer time db :
  let db' := (insert_train punkt nomer time db).2 in
  groups db' = groups db ∧
  (rows_of_trains db' = rows_of_trains db ∨
   ∃ s p t, train_st db = Some s ∧
            rows_of_trains db'
            = rows_of_trains db ++ [TrainRow (seq_next s) p nomer t]).
Proof.
  cbn zeta. split; [apply insert_train_groups|].
  unfold insert_train, rejected_train_insert, rows_of_trains.
  destruct (trains db) as [ts|] eqn:Hts; [|left; cbn; by rewrite ?Hts].
  destruct (groups db) as [gs|]; [|left; cbn; by rewrite ?Hts].
  destruct (train_st db) as [s|]; [|left; cbn; by rewrite ?Hts].
  destruct (to_text punkt) as [p|], (to_text time) as [t|]; cbn;
    repeat case_bool_decide; cbn;
    try (left; destruct rejected_insert_keeps_nextval; cbn; by rewrite ?Hts).
  right. eauto.
Qed.

Lemma insert_group_rows v db :
  let db' := (insert_group v db).2 in
  trains db' = trains db ∧ train_st db' = train_st db ∧
  (rows_of_groups db' = rows_of_groups db ∨
   ∃ s title, type_st db = Some s ∧
              rows_of_groups db'
              = rows_of_groups db ++ [GroupRow (seq_next s) title]).
Proof.
  cbn zeta. unfold insert_group, rejected_group_insert, rows_of_groups.
  destruct (groups db) as [gs|] eqn:Hgs;
    [|cbn; repeat split; left; by rewrite ?Hgs].
  destruct (type_st db) as [s|];
    [|cbn; repeat split; left; by rewrite ?Hgs].
  destruct (bind_error v); [cbn; repeat split; left; by rewrite ?Hgs|].
  destruct (to_text v) as [title|]; [case_bool_decide|]; cbn;
    try (destruct rejected_insert_keeps_nextval; cbn;
         repeat split; left; by rewrite ?Hgs).
  repeat split. right. eauto.
Qed.

(** The rows one [add_train] can add: at most one to each table, with the
    id its sequence gives next. *)
Lemma add_train_stmts_rows punkt nomer time db :
  let db' := (add_train_stmts punkt nomer time db).2 in
  (rows_of_groups db' = rows_of_groups db ∨
   ∃ s title, type_st db = Some s ∧
              rows_of_groups db'
              = rows_of_groups db ++ [GroupRow (seq_next s) title]) ∧
  (rows_of_trains db' = rows_of_trains db ∨
   ∃ s p n t, train_st db = Some s ∧
              rows_of_trains db'
              = rows_of_trains db ++ [TrainRow (seq_next s) p n t]).
Proof.
  cbn zeta. unfold add_train_stmts, bind, ret. rewrite select_group_id_eq.
  destruct (select_group_id nomer db).1 as [[id|]|e0]; lazy beta iota.
  - destruct (insert_train_rows punkt id time db) as [Hg Ht].
    unfold rows_of_groups at 1 3. rewrite Hg. split; [by left|].
    destruct Ht as [Ht|(s & p & t & Hs & Ht)]; [by left|right; eauto 10].
  - destruct (insert_group_rows nomer db) as (Htr & Hts & Hg).
    destruct (insert_group nomer db) as [[[]|e] db1]; lazy beta iota;
      cbn [snd] in *.
    + pose proof (currval_type_st_unchanged db1) as Hcur.
      destruct (currval_type_st db1) as [[n|e] db2]; cbn in Hcur; subst db2;
        lazy beta iota; cbn [snd].
      * destruct (insert_train_rows punkt n time db1) as [Hg1 Ht].
        unfold rows_of_groups at 1 3. rewrite Hg1. fold (rows_of_groups db1).
        split; [done|]. unfold rows_of_trains in *. rewrite Htr, Hts in Ht.
        destruct Ht as [Ht|(s & p & t & Hs & Ht)]; [by left|right; eauto 10].
      * split; [done|]. left. unfold rows_of_trains. by rewrite Htr.
    + split; [done|]. left. unfold rows_of_trains. by rewrite Htr.
  - cbn. split; by left.
Qed.

Lemma keys_unique_empty : keys_unique empty_db.
Proof. split; apply NoDup_nil_2. Qed.

Lemma create_db_stmts_keys_unique db :
  keys_unique db → keys_unique (create_db_stmts db).2.
Proof.
  rewrite create_db_stmts_spec. unfold keys_unique, rows_of_groups,
    rows_of_trains. cbn. by destruct (groups db), (trains db).
Qed.

Lemma add_train_stmts_keys_unique punkt nomer time db :
  consistent db → keys_unique db →
  keys_unique (add_train_stmts punkt nomer time db).2.
Proof.
  intros Hc [Hg Ht].
  destruct (add_train_stmts_rows punkt nomer time db) as [Hgs Hts].
  split.
  - destruct Hgs as [->|(s & title & Hs & ->)]; [done|].
    unfold ids_of_groups. rewrite fmap_app. apply NoDup_app.
    split; [done|]. split; [|apply NoDup_singleton].
    intros x Hx Hx'. apply list_elem_of_singleton in Hx' as ->. cbn in Hx.
    apply list_elem_of_fmap in Hx as (g & Hid & Hin).
    pose proof (group_ids_drawn _ Hc s g Hs Hin). lia.
  - destruct Hts as [->|(s & p & n & t & Hs & ->)]; [done|].
    unfold ids_of_trains. rewrite fmap_app. apply NoDup_app.
    split; [done|]. split; [|apply NoDup_singleton].
    intros x Hx Hx'. apply list_elem_of_singleton in Hx' as ->. cbn in Hx.
    apply list_elem_of_fmap in Hx as (r & Hid & Hin).
    pose proof (train_ids_drawn _ Hc s r Hs Hin). lia.
Qed.

End Further.

Lemma reachable_keys_unique fs :
  reachable fs → ∀ path db, fs !! path = Some db → keys_unique db.
Proof.
  induction 1 as [|E fs c Hr IH]; [intros p db; by rewrite lookup_empty|].
  pose proof (reachable_consistent fs Hr) as Hcs.
  assert (∀ path, keys_unique (connect path fs)) as Hconn.
  { intros path. unfold connect.
    destruct (fs !! path) as [db|] eqn:Hdb; cbn;
      [by eapply IH | apply keys_unique_empty]. }
  assert (∀ A path (body : M database A),
            (∀ db, consistent db → keys_unique db → keys_unique (body db).2) →
            ∀ p db, (with_connection path body fs).2 !! p = Some db →
                    keys_unique db) as Hwc.
  { intros A path body Hbody p db. unfold with_connection. cbn.
    destruct (decide (path = p)) as [->|Hne].
    - rewrite lookup_insert_eq. intros [= <-].
      apply Hbody; [by apply connect_consistent | apply Hconn].
    - rewrite lookup_insert_ne by done. apply IH. }
  destruct c; cbn; apply Hwc.
  - intros db _. apply create_db_stmts_keys_unique.
  - intros db. apply add_train_stmts_keys_unique.
  - intros db _. by rewrite select_all_stmts_unchanged.
  - intros db _. by rewrite select_by_num_stmts_unchanged.
Qed.




Section Outcomes.
Context `{Engine}.




End Outcomes.

(** X7.  In every reachable state no two [groups] rows have the same
    title, whatever numbers (integers, texts or [None]) the calls passed, and
    the primary keys of [groups] and of [trains] are pairwise distinct. *)
Theorem reachable_groups_distinct fs path db :
  reachable fs → fs !! path = Some db →
  NoDup (g_train_title <$> rows_of_groups db) ∧
  NoDup (ids_of_groups (rows_of_groups db)) ∧
  NoDup (ids_of_trains (rows_of_trains db)).
Proof.
  intros Hr Hdb.
  pose proof (reachable_consistent fs Hr path db Hdb) as Hc.
  destruct (reachable_keys_unique fs Hr path db Hdb) as [Hg Ht].
  split; [apply (titles_distinct _ Hc)|done].
Qed.

(** X8.  In every reachable state the [train_nomer] of every [trains] row
    is the [train_id] of a [groups] row: [add_train] only ever stores the
    id of the group it found or just created. *)
Theorem reachable_nomer_references_group fs path db t :
  reachable fs → fs !! path = Some db → t ∈ rows_of_trains db →
  ∃ g, g ∈ rows_of_groups db ∧ g_train_id g = t_train_nomer t.
Proof.
  intros Hr Hdb Ht.
  pose proof (reachable_consistent fs Hr path db Hdb) as Hc.
  pose proof (nomer_is_group_id _ Hc t Ht) as Hin.
  apply list_elem_of_fmap in Hin as (g & Hid & Hg). eauto.
Qed.

(** ** Calls that all go through *)
















(** ** [main] *)

Section MainFurther.
Context `{Engine}.

Lemma connect_insert (path : str) (db : database) (fs : files) :
  connect path (<[path := db]> fs) = db.
Proof. unfold connect. by rewrite lookup_insert_eq. Qed.

Lemma create_db_eq path fs :
  create_db path fs = (Ok (), after (CreateDb path) fs).
Proof.
  rewrite (surjective_pairing (create_db path fs)). by rewrite create_db_ok.
Qed.

(** How [main] dispatches, once the arguments are parsed. *)
Lemma run_add args d punkt nomer time fs :
  args !! "db" = Some (PStr d) →
  args !! "command" = Some (PStr (txt "add")) →
  args !! "punkt" = Some punkt → args !! "nomer" = Some nomer →
  args !! "time" = Some time →
  run args fs
  = let out := add_train d punkt nomer time (after (CreateDb d) fs) in
    (match out.1 with Ok _ => Ok [] | Raise e => Raise e end, out.2).
Proof.
  intros Hdb Hcmd Hp Hn Ht. unfold run, bind, attr, Path, ret, raise.
  rewrite Hdb, create_db_eq, Hcmd, Hp, Hn, Ht.
  rewrite bool_decide_eq_true_2 by done. cbn zeta.
  by destruct (add_train d punkt nomer time _) as [[[]|e] fs2].
Qed.

Lemma run_display args d fs :
  args !! "db" = Some (PStr d) →
  args !! "command" = Some (PStr (txt "display")) →
  run args fs
  = let out := select_all d (after (CreateDb d) fs) in
    (match out.1 with
     | Ok rows => Ok (display_trains rows)
     | Raise e => Raise e
     end, out.2).
Proof.
  intros Hdb Hcmd. unfold run, bind, attr, Path, ret, raise.
  rewrite Hdb, create_db_eq, Hcmd.
  rewrite bool_decide_eq_false_2 by discriminate.
  rewrite bool_decide_eq_true_2 by done. cbn zeta.
  by destruct (select_all d _) as [[rows|e] fs2].
Qed.

Lemma run_select args d nomer fs :
  args !! "db" = Some (PStr d) →
  args !! "command" = Some (PStr (txt "select")) →
  args !! "select" = Some nomer →
  run args fs
  = let out := select_by_num d nomer (after (CreateDb d) fs) in
    (match out.1 with
     | Ok rows => Ok (display_trains rows)
     | Raise e => Raise e
     end, out.2).
Proof.
  intros Hdb Hcmd Hsel. unfold run, bind, attr, Path, ret, raise.
  rewrite Hdb, create_db_eq, Hcmd.
  rewrite !bool_decide_eq_false_2 by discriminate.
  rewrite bool_decide_eq_true_2 by done. rewrite Hsel. cbn zeta.
  by destruct (select_by_num d nomer _) as [[rows|e] fs2].
Qed.

(** After [create_db] the two SELECTs return; they leave the files as
    [create_db] left them. *)
Lemma select_all_after_create d fs :
  ∃ rows, select_all d (after (CreateDb d) fs)
          = (Ok rows, after (CreateDb d) fs).
Proof.
  destruct (create_db_schema_present d fs) as (_ & _ & [gs Hgs] & [ts Hts]).
  exists (row_dict <$> join_rows ts gs).
  rewrite select_all_eq.
  f_equal.
  - unfold select_all_stmts, bind, select_join, ret. by rewrite Hts, Hgs.
  - rewrite after_create_db. unfold with_connection at 2. cbn [snd].
    rewrite connect_with_connection. by rewrite insert_insert_eq.
Qed.

Lemma select_by_num_after_create d s fs :
  ∃ rows, select_all d (after (CreateDb d) fs)
          = (Ok rows, after (CreateDb d) fs) ∧
          select_by_num d (PStr s) (after (CreateDb d) fs)
          = (Ok (filter (λ t, get t "nomer" = s) rows),
             after (CreateDb d) fs).
Proof.
  destruct (select_all_after_create d fs) as [rows Hrows].
  exists rows. split; [done|].
  set (fs1 := after (CreateDb d) fs) in *.
  rewrite select_all_eq in Hrows.
  pose proof (f_equal fst Hrows) as Hr. pose proof (f_equal snd Hrows) as Hf.
  cbn [fst snd] in Hr, Hf.
  rewrite select_by_num_eq, select_by_num_stmts_filter, Hr, Hf
    by apply lookup_error_text.
  by rewrite filter_text_title.
Qed.

Lemma parse_args_display cwd :
  parse_args cwd [txt "display"]
  = Parsed (<["command" := PStr (txt "display")]>
              (defaults cwd display_parser)).
Proof. reflexivity. Qed.

Lemma parse_args_select cwd nomer :
  value_token nomer →
  parse_args cwd [txt "select"; txt "-s"; nomer]
  = Parsed (<["select" := PStr nomer]>
              (<["command" := PStr (txt "select")]>
                 (defaults cwd select_parser))).
Proof.
  intros Hv. unfold parse_args.
  rewrite !bool_decide_eq_false_2 by discriminate.
  rewrite bool_decide_eq_true_2 by done.
  rewrite (parse_known_text _ _ _ _ _ _
             (Argument [txt "-s"; txt "--select"] "select" false true));
    [|by vm_compute|done|done].
  reflexivity.
Qed.

Lemma main_display cwd fs rows :
  let d := default_db cwd in
  select_all d (after (CreateDb d) fs) = (Ok rows, after (CreateDb d) fs) →
  main cwd [txt "display"] fs
  = (Returned, display_trains rows, after (CreateDb d) fs).
Proof.
  intros d Hall. unfold main. rewrite parse_args_display.
  rewrite (run_display _ d); [|by rewrite defaults_display_parser|done].
  cbn zeta. fold d. by rewrite Hall.
Qed.

Lemma main_select cwd nomer fs rows :
  value_token nomer →
  let d := default_db cwd in
  select_all d (after (CreateDb d) fs) = (Ok rows, after (CreateDb d) fs) →
  main cwd [txt "select"; txt "-s"; nomer] fs
  = (Returned, display_trains (filter (λ t, get t "nomer" = nomer) rows),
     after (CreateDb d) fs).
Proof.
  intros Hv d Hall. unfold main. rewrite parse_args_select by done.
  rewrite (run_select _ d (PStr nomer));
    [|by rewrite defaults_select_parser|done|done].
  cbn zeta. fold d.
  destruct (select_by_num_after_create d nomer fs)
    as (rows' & Hall' & ->).
  rewrite Hall in Hall'. by injection Hall' as <-.
Qed.

(** X15.  [display] and [select -s value] return normally whatever the
    files were before: [main] creates the schema first, so the query
    cannot fail.  They print the table of the rows [select_all] gives, for
    [select] those whose number is the value as text, and leave the files
    as [create_db] leaves them. *)
Theorem main_reads_return cwd nomer fs :
  value_token nomer →
  let d := default_db cwd in
  ∃ rows,
    select_all d (after (CreateDb d) fs) = (Ok rows, after (CreateDb d) fs) ∧
    main cwd [txt "display"] fs
    = (Returned, display_trains rows, after (CreateDb d) fs) ∧
    main cwd [txt "select"; txt "-s"; nomer] fs
    = (Returned, display_trains (filter (λ t, get t "nomer" = nomer) rows),
       after (CreateDb d) fs).
Proof.
  intros Hv d.
  destruct (select_all_after_create d fs) as [rows Hall].
  exists rows. split; [done|]. split.
  - by apply main_display.
  - by apply main_select.
Qed.

(** X16.  [add -p punkt -t time] without [-n] always ends in the NOT NULL
    violation of [groups.train_title], prints nothing, and stores no row in
    either table of the default database. *)
Theorem main_add_without_nomer cwd punkt time fs :
  value_token punkt → value_token time →
  let d := default_db cwd in
  let out := main cwd [txt "add"; txt "-p"; punkt; txt "-t"; time] fs in
  out.1 = (Raised (ConstraintError "groups" NotNull), []) ∧
  rows_of_groups (connect d out.2) = rows_of_groups (connect d fs) ∧
  rows_of_trains (connect d out.2) = rows_of_trains (connect d fs).
Proof.
  intros Hp Ht d out. subst out. unfold main.
  rewrite parse_args_add_without_nomer by done.
  rewrite (run_add _ d (PStr punkt) PNone (PStr time));
    [|by rewrite defaults_add_parser..]. cbn zeta.
  destruct (create_db_schema_present d fs) as ([s Hs] & _ & [gs Hgs] & _).
  set (fs1 := after (CreateDb d) fs) in *.
  assert (add_train d (PStr punkt) PNone (PStr time) fs1
          = (Raise (ConstraintError "groups" NotNull),
             <[d := rejected_group_insert (connect d fs1) s]> fs1)) as ->.
  { unfold add_train, with_connection.
    by rewrite (add_train_stmts_none _ _ _ s gs). }
  cbn [fst snd]. split; [done|].
  rewrite !connect_insert. subst fs1.
  rewrite after_create_db, connect_with_connection, create_db_stmts_spec.
  unfold rejected_group_insert, rows_of_groups, rows_of_trains.
  destruct rejected_insert_keeps_nextval; cbn;
    by destruct (groups (connect d fs)), (trains (connect d fs)).
Qed.





(** X18.  The first [display] on a machine without the default database
    file prints nothing and leaves a database with the empty schema. *)
Theorem main_display_empty cwd fs :
  fs !! default_db cwd = None →
  main cwd [txt "display"] fs
  = (Returned, [], <[default_db cwd := db_after []]> fs).
Proof.
  intros Hfresh. set (d := default_db cwd) in *.
  assert (after (CreateDb d) fs = <[d := db_after []]> fs) as Hcreate.
  { rewrite after_create_db. unfold with_connection. cbn [snd].
    unfold connect. by rewrite Hfresh. }
  rewrite (main_display cwd fs []); fold d; rewrite Hcreate; [done|].
  rewrite select_all_eq, connect_insert. by rewrite insert_insert_eq.
Qed.
End MainFurther.

(** ** Instances of the further properties *)


Lemma selects_leave_existing_file_witness :
  (select_all trains_db (moscow_added engine_keeps)).2
  = moscow_added engine_keeps.
Proof.
  apply (proj1 (@selects_leave_existing_file engine_keeps trains_db PNone
                  (moscow_added engine_keeps)
                  (connect trains_db (moscow_added engine_keeps))
                  ltac:(vm_compute; reflexivity))).
Defined.

Lemma no_file_catalog_error_witness :
  select_all trains_db ∅
  = (Raise (CatalogError "trains"), <[trains_db := empty_db]> ∅).
Proof.
  apply (proj1 (proj2 (@no_file_catalog_error engine_keeps trains_db
                         PNone PNone PNone ∅ (lookup_empty trains_db)))).
Defined.

Lemma add_train_without_nomer_witness :
  (@add_train engine_keeps trains_db (PStr (txt "Moscow")) PNone
     (PStr (txt "14:30")) (created engine_keeps)).1
  = Raise (ConstraintError "groups" NotNull).
Proof.
  apply (proj1 (@add_train_without_nomer engine_keeps trains_db
                  (PStr (txt "Moscow")) (PStr (txt "14:30"))
                  (created engine_keeps)
                  ltac:(vm_compute; repeat split; eauto))).
Defined.

Lemma create_db_keeps_data_witness :
  @after engine_keeps (CreateDb trains_db) (moscow_added engine_keeps)
  = moscow_added engine_keeps.
Proof.
  apply (proj2 (proj2 (proj2 (proj2 (proj2 (proj2
           (@create_db_keeps_data engine_keeps trains_db
              (moscow_added engine_keeps)))))))).
  - vm_compute. repeat split; eauto.
  - vm_compute. reflexivity.
Defined.



Lemma reachable_groups_distinct_witness :
  NoDup (g_train_title
           <$> rows_of_groups (connect trains_db (moscow_added engine_keeps))).
Proof.
  apply (proj1 (reachable_groups_distinct
                  (moscow_added engine_keeps) trains_db
                  (connect trains_db (moscow_added engine_keeps))
                  ltac:(repeat constructor)
                  ltac:(vm_compute; reflexivity))).
Defined.

Lemma reachable_nomer_references_group_witness :
  ∃ g, g ∈ rows_of_groups (connect trains_db (moscow_added engine_keeps)) ∧
       g_train_id g
       = t_train_nomer (TrainRow 1 (txt "Moscow") 1 (txt "14:30")).
Proof.
  apply (reachable_nomer_references_group
           (moscow_added engine_keeps) trains_db
           (connect trains_db (moscow_added engine_keeps))).
  - repeat constructor.
  - vm_compute. reflexivity.
  - vm_compute. left.
Defined.




Lemma display_trains_row_position_witness :
  display_trains [moscow_row] !! 3%nat = Some (data_row 1 moscow_row).
Proof.
  apply (proj1 (display_trains_row_position [moscow_row] 0 moscow_row
                  eq_refl)).
Defined.

Lemma display_trains_aligned_witness :
  Forall (λ printed, length printed = 87%nat) (display_trains [moscow_row]).
Proof.
  apply (display_trains_aligned [moscow_row]).
  - vm_compute. reflexivity.
  - repeat constructor; vm_compute; lia.
Defined.

Lemma main_reads_return_witness :
  ∃ rows,
    select_all (default_db home)
      (@after engine_keeps (CreateDb (default_db home)) ∅)
    = (Ok rows, @after engine_keeps (CreateDb (default_db home)) ∅) ∧
    @main engine_keeps home [txt "display"] ∅
    = (Returned, display_trains rows,
       @after engine_keeps (CreateDb (default_db home)) ∅) ∧
    @main engine_keeps home [txt "select"; txt "-s"; txt "101"] ∅
    = (Returned,
       display_trains (filter (λ t, get t "nomer" = txt "101") rows),
       @after engine_keeps (CreateDb (default_db home)) ∅).
Proof.
  apply (@main_reads_return engine_keeps home (txt "101") ∅).
  reflexivity.
Defined.

Lemma main_add_without_nomer_witness :
  (@main engine_keeps home
     [txt "add"; txt "-p"; txt "Moscow"; txt "-t"; txt "14:30"] ∅).1
  = (Raised (ConstraintError "groups" NotNull), []).
Proof.
  apply (proj1 (@main_add_without_nomer engine_keeps home (txt "Moscow")
                  (txt "14:30") ∅ eq_refl eq_refl)).
Defined.


Lemma main_display_empty_witness :
  @main engine_keeps home [txt "display"] ∅
  = (Returned, [], <[default_db home := db_after []]> ∅).
Proof.
  apply (@main_display_empty engine_keeps home ∅
           (lookup_empty (default_db home))).
Defined.
